(** * unicast: receivers, sessions and the Kodi transport

    A shallow embedding of
    - [MpvReceiver] (src/Extensions/MediaReceivers/Mpv/MpvReceiver.ts),
    - [KodiConnection] (the JSON-RPC transport client with its
      retry / fallback policy), and
    - [KodiApi.query] (the library query helper),
    followed by the properties of the receiver contract checked on them.

    Asynchronous methods are embedded in direct style: every [await] is
    a call that either returns or throws, receivers being driven one
    command at a time. *)

From stdpp Require Import gmap strings list.
From Stdlib Require Import ZArith QArith Qround.

Set Default Proof Using "Type".

Close Scope Q_scope.

(** ** JavaScript values and thrown errors *)

(** JSON-like values: what a caller can hand to [callCommand] and what
    a device sends back. *)
#[warnings="-register-all"]
Inductive JsVal : Type :=
| Undefined
| Null
| Bool (b : bool)
| Num (q : Q)
| Str (s : string)
| Arr (items : list JsVal)
| Obj (fields : list (string * JsVal)).

(** The error classes thrown by the embedded code. *)
Inductive ErrorClass : Type :=
| PlainError             (* new Error( ... ) *)
| InvalidArgumentError   (* restify-errors *)
| SessionNotFoundError   (* the registry's lookup failure *)
| TypeError              (* raised by the language runtime *)
| SyntaxError.           (* raised by JSON.parse *)

Record JsError : Type := mkError {
  err_class : ErrorClass;
  err_message : string
}.

(** Lookup by name in a table that is searched front to back. *)
Fixpoint assoc {A} (name : string) (table : list (string * A)) : option A :=
  match table with
  | [] => None
  | (n, a) :: rest => if String.eqb n name then Some a else assoc name rest
  end.

(** [v.name] for a value that is neither [null] nor [undefined]. *)
Definition property (v : JsVal) (name : string) : JsVal :=
  match v with
  | Obj fields => default Undefined (assoc name fields)
  | _ => Undefined
  end.

(** Truthiness. *)
Definition truthy (v : JsVal) : bool :=
  match v with
  | Undefined | Null => false
  | Bool b => b
  | Num q => negb (Qeq_bool q 0)
  | Str s => negb (String.eqb s "")
  | Arr _ | Obj _ => true
  end.

(** [{ ...fields, name: v }] on the members of an object: an existing
    member keeps its place and takes the new value, a new one is added
    at the end. *)
Fixpoint set_field (name : string) (v : JsVal) (fields : list (string * JsVal))
  : list (string * JsVal) :=
  match fields with
  | [] => [(name, v)]
  | (n, x) :: rest =>
      if String.eqb n name then (n, v) :: rest else (n, x) :: set_field name v rest
  end.

(** [{ ...base, ...extra }] *)
Definition object_spread (base extra : list (string * JsVal)) : list (string * JsVal) :=
  fold_left (fun fields member => set_field (fst member) (snd member) fields) extra base.

(** The completion of a call: it returns a value or throws. *)
Inductive Completion (A : Type) : Type :=
| Return (a : A)
| Throw (e : JsError).
Arguments Return {A} a.
Arguments Throw {A} e.

Definition returned {A} (c : Completion A) : bool :=
  match c with Return _ => true | Throw _ => false end.

(** ** The status model (IMediaReceiver.ts and the literals of
    [MpvReceiver.status]) *)

Inductive ReceiverStatusState : Type :=
| Stopped | Playing | Paused | Buffering.

Inductive MediaStreamType : Type :=
| Video | Audio | Subtitles.

Record MediaStream : Type := mkStream {
  stream_id : string;
  stream_type : MediaStreamType
}.

(** [MediaPlayOptions]: every member is optional. *)
Record MediaPlayOptions : Type := mkPlayOptions {
  autostart : option bool;
  startTime : option Q;
  mediaId : option string;
  mediaKind : option string;
  playlistId : option string;
  playlistPosition : option Q
}.

(** The object literal [{}]. *)
Definition emptyOptions : MediaPlayOptions :=
  mkPlayOptions None None None None None None.

(** Media records and history rows are opaque to the receiver; they are
    represented by their identifier. *)
Definition MediaRecord : Type := string.
Definition HistoryRecord : Type := string.

Record ReceiverTimeStatus : Type := mkTime {
  duration : Q;
  current_time : Q;       (* [current] in the source *)
  speed : Q
}.

Record ReceiverVolumeStatus : Type := mkVolume {
  level : Q;
  muted : bool
}.

Record ReceiverSubtitlesStyleStatus : Type := mkSubtitlesStyle {
  size : Q
}.

Record ReceiverMediaStatus : Type := mkMedia {
  time : ReceiverTimeStatus;
  transcoding : option unit;          (* always [null] in this driver *)
  record : option MediaRecord;
  session : option HistoryRecord;
  options : option MediaPlayOptions   (* [{}] is [Some emptyOptions] *)
}.

Record ReceiverStatus : Type := mkStatus {
  timestamp : Z;
  state : ReceiverStatusState;
  media : ReceiverMediaStatus;
  volume : ReceiverVolumeStatus;
  subtitlesStyle : option ReceiverSubtitlesStyleStatus
}.

(** What the player reports through [MpvConnection.status()]: the
    members [path], [pause], [duration], [position], [volume], [mute]
    and [subScale] that [MpvReceiver.status] reads. *)
Record MpvStatus : Type := mkMpvStatus {
  st_path : option string;
  st_pause : bool;
  st_duration : Q;
  st_position : Q;
  st_volume : Q;
  st_mute : bool;
  st_subScale : Q
}.

(** [Math.round]. *)
Definition Math_round (q : Q) : Q := inject_Z (Qfloor (q + (1 # 2))%Q).

(** Truthiness of an optional string member: [null], [undefined] and the
    empty string are falsy. *)
Definition truthy_string (s : option string) : bool :=
  match s with
  | Some s => negb (String.eqb s "")
  | None => false
  end.

(** ** The receiver and its surroundings *)

(** The session data the registry resolves an id to. *)
Record SessionEntry : Type := mkEntry {
  streams : list MediaStream;
  entry_record : MediaRecord;
  entry_options : MediaPlayOptions
}.

(** What the receiver did, in order: the calls it made on its transport
    connection, on the registry, on its listeners and on the history
    table. *)
Inductive Event : Type :=
| Transport (method : string) (args : list JsVal)
| Released (id : option string)
| Emitted (name : string) (id : option string)
| HistoryLookup (id : option string).

(** The mutable state reachable from one receiver: the registry with
    its [current] pointer, and the trace of the calls made so far. *)
Record Receiver : Type := mkReceiver {
  records : gmap string SessionEntry;
  current : option string;
  trace : list Event
}.

(** Everything the receiver talks to and that lives outside this
    repository's sources or outside the process: the player behind
    [MpvConnection], the listeners registered on the receiver, the
    history table, the stream url builder and the clock.  Each answer
    may depend on the moment of the call, which is the number of calls
    made before it. *)
Record World : Type := mkWorld {
  (* this.connection.connected *)
  connection_connected : nat -> bool;
  (* this.connection.<method>( ...args ): the reply, when one is read,
     is the status object or null *)
  connection_call : nat -> string -> list JsVal -> Completion (option MpvStatus);
  (* this.emit( name, id ): a listener may throw *)
  listeners : nat -> string -> option string -> Completion unit;
  (* this.server.database.tables.history.get( session ) *)
  history_get : nat -> option string -> Completion (option HistoryRecord);
  (* this.sender.host() + this.sender.getUrlFor( session, id ) *)
  sender_url : JsVal -> JsVal -> string;
  (* new Date() *)
  clock : nat -> Z;
  (* constructor arguments *)
  cfg_name : string;
  cfg_address : string;
  cfg_port : Z
}.

(** ** A state and exception monad for the receiver's methods *)

Definition M (A : Type) : Type := Receiver -> Completion A * Receiver.

Definition ret {A} (a : A) : M A := fun r => (Return a, r).

Definition throw {A} (e : JsError) : M A := fun r => (Throw e, r).

Definition bind {A B} (m : M A) (k : A -> M B) : M B :=
  fun r =>
    match m r with
    | (Return a, r') => k a r'
    | (Throw e, r') => (Throw e, r')
    end.

(** [try { body } catch ( err ) { handler }] *)
Definition try_catch {A} (body : M A) (handler : JsError -> M A) : M A :=
  fun r =>
    match body r with
    | (Return a, r') => (Return a, r')
    | (Throw e, r') => handler e r'
    end.

(** [try { body } finally { return final }]: the [return] in the
    [finally] block replaces whatever the body completed with. *)
Definition try_finally_return {A B} (body : M A) (final : M B) : M B :=
  fun r => final (snd (body r)).

Declare Scope receiver_scope.
Delimit Scope receiver_scope with recv.
Notation "'let*' x := c 'in' k" := (bind c (fun x => k))
  (at level 10, x name, c at level 100, k at level 200) : receiver_scope.
Notation "c ;; k" := (bind c (fun _ => k))
  (at level 100, k at level 200, right associativity) : receiver_scope.
Open Scope receiver_scope.

Definition get_current : M (option string) := fun r => (Return (current r), r).

Definition set_current (id : option string) : M unit :=
  fun r => (Return tt, mkReceiver (records r) id (trace r)).

Definition now (r : Receiver) : nat := length (trace r).

Definition record_event (e : Event) (r : Receiver) : Receiver :=
  mkReceiver (records r) (current r) (trace r ++ [e]).

(** ** The session registry *)

Module MediaSessionsManager.

(** Modelled from the spec: [MediaSessionsManager]
    (Receivers/BaseReceiver/MediaSessionsManager.ts) is not among the
    sources.  Its [get] resolves a session id to its streams, record and
    options and fails with [SessionNotFoundError] if the id is unknown.
    An id that is [null] (or no string at all) is never bound. *)
Definition get (id : option string) : M SessionEntry :=
  fun r =>
    match id with
    | Some i =>
        match records r !! i with
        | Some entry => (Return entry, r)
        | None => (Throw (mkError SessionNotFoundError i), r)
        end
    | None => (Throw (mkError SessionNotFoundError "null"), r)
    end.

(** Modelled from the spec: [release] removes the binding and is a
    no-op, not an error, on an unknown or already released id.  It does
    not touch the [current] pointer, which each driver tracks itself. *)
Definition release (id : option string) : M unit :=
  fun r =>
    let records' :=
      match id with
      | Some i => delete i (records r)
      | None => records r
      end in
    (Return tt, record_event (Released id) (mkReceiver records' (current r) (trace r))).

End MediaSessionsManager.

(** ** Results of a dynamically dispatched command *)

Inductive Value : Type :=
| VBool (b : bool)
| VStatus (s : ReceiverStatus)
| VString (s : string)
| VSummary (type name address : string) (port : Z)   (* toJSON() *)
| VJs (v : JsVal).

(** A member the receiver inherits from [BaseReceiver] and the rest of
    its prototype chain (not among the sources): a plain value, or a
    function with some behaviour. *)
Inductive Inherited : Type :=
| InheritedData
| InheritedMethod (body : list JsVal -> Receiver -> Completion Value * Receiver).

(** The methods declared by the [MpvReceiver] class. *)
Inductive Method : Type :=
| MConnect | MDisconnect | MReconnect | MTurnoff | MGetStreamUrl
| MPlay | MPause | MResume | MStop | MStatus | MSeek | MSeekTo
| MMute | MUnmute | MSetVolume | MCallCommand
| MChangeSubtitles | MChangeSubtitlesSize | MChangeSubtitlesStyle
| MCycleSubtitlesStyle | MToJSON.

(** A property declared by the class: a method, a field or getter
    whose value is not a function, or the class's constructor. *)
Inductive Member : Type :=
| OwnMethod (m : Method)
| OwnData
| OwnConstructor.

(** The members [MpvReceiver] declares, by name. *)
Definition own_members : list (string * Member) :=
  [ ("type", OwnData); ("address", OwnData); ("port", OwnData);
    ("connection", OwnData); ("instance", OwnData); ("sender", OwnData);
    ("logger", OwnData); ("constructor", OwnConstructor); ("connected", OwnData);
    ("connect", OwnMethod MConnect);
    ("disconnect", OwnMethod MDisconnect);
    ("reconnect", OwnMethod MReconnect);
    ("turnoff", OwnMethod MTurnoff);
    ("getStreamUrl", OwnMethod MGetStreamUrl);
    ("play", OwnMethod MPlay);
    ("pause", OwnMethod MPause);
    ("resume", OwnMethod MResume);
    ("stop", OwnMethod MStop);
    ("status", OwnMethod MStatus);
    ("seek", OwnMethod MSeek);
    ("seekTo", OwnMethod MSeekTo);
    ("mute", OwnMethod MMute);
    ("unmute", OwnMethod MUnmute);
    ("setVolume", OwnMethod MSetVolume);
    ("callCommand", OwnMethod MCallCommand);
    ("changeSubtitles", OwnMethod MChangeSubtitles);
    ("changeSubtitlesSize", OwnMethod MChangeSubtitlesSize);
    ("changeSubtitlesStyle", OwnMethod MChangeSubtitlesStyle);
    ("cycleSubtitlesStyle", OwnMethod MCycleSubtitlesStyle);
    ("toJSON", OwnMethod MToJSON) ].

(** The operations of the uniform receiver contract that [callCommand]
    is specified to dispatch to (spec, section 4.1). *)
Definition contract_operations : list string :=
  [ "connect"; "disconnect"; "reconnect"; "play"; "pause"; "resume";
    "stop"; "status"; "seek"; "seekTo"; "setVolume"; "mute"; "unmute" ].

Definition recognized_operation (name : string) : bool :=
  existsb (String.eqb name) contract_operations.

(** The language runtime, as far as dynamic dispatch needs it. *)
Record Runtime : Type := mkRuntime {
  (* Number::toString *)
  number_toString : Q -> string;
  (* the members inherited along the prototype chain *)
  inherited : string -> option Inherited
}.

(** ** MpvReceiver *)

Module MpvReceiver.

Import MediaSessionsManager.

Section Methods.

Context (w : World) (rt : Runtime).

(** [this.connection.connected] *)
Definition connection_is_connected : M bool :=
  fun r => (Return (connection_connected w (now r)), r).

(** [this.connection.<method>( ...args )] *)
Definition connection (method : string) (args : list JsVal) : M (option MpvStatus) :=
  fun r => (connection_call w (now r) method args, record_event (Transport method args) r).

(** [this.emit( name, id )] *)
Definition emit (name : string) (id : option string) : M unit :=
  fun r => (listeners w (now r) name id, record_event (Emitted name id) r).

(** [this.server.database.tables.history.get( session )] *)
Definition history (id : option string) : M (option HistoryRecord) :=
  fun r => (history_get w (now r) id, record_event (HistoryLookup id) r).

(** [new Date()] *)
Definition new_Date : M Z :=
  fun r => (Return (clock w (now r)), r).

(** The constructor's treatment of the address. *)
Definition address : string :=
  if String.eqb (cfg_address w) "builtin" then "localhost" else cfg_address w.

(** The [connected] getter: [this.connection != null].  The connection
    is created by the constructor and never reassigned. *)
Definition connected : bool := true.

Definition connect : M bool :=
  let* is_connected := connection_is_connected in
  (if is_connected then connection "open" [] ;; ret tt else ret tt) ;;
  ret true.

Definition disconnect : M bool :=
  (if connected then connection "close" [] ;; ret tt else ret tt) ;;
  ret true.

Definition reconnect : M bool :=
  try_finally_return disconnect connect.

(** The snapshot returned when nothing is playing. *)
Definition stoppedStatus (ts : Z) : ReceiverStatus :=
  {| timestamp := ts;
     state := Stopped;
     media := {| time := {| duration := 0; current_time := 0; speed := 0 |};
                 transcoding := None;
                 record := None;
                 session := None;
                 options := Some emptyOptions |};
     volume := {| level := 1; muted := false |};
     subtitlesStyle := None |}.

Definition status : M ReceiverStatus :=
  let* reply := connection "status" [] in
  match reply with
  | None =>
      let* ts := new_Date in ret (stoppedStatus ts)
  | Some st =>
      if negb (truthy_string (st_path st)) then
        let* ts := new_Date in ret (stoppedStatus ts)
      else
        let* session := get_current in
        let* entry := get session in
        let* ts := new_Date in
        let* row := history session in
        ret {| timestamp := ts;
               state := if st_pause st then Paused else Playing;
               media := {| time := {| duration := st_duration st;
                                      current_time := st_position st;
                                      speed := if st_pause st then 0 else 1 |};
                           transcoding := None;
                           record := Some (entry_record entry);
                           session := row;
                           options := None |};
               volume := {| level := Math_round (st_volume st); muted := st_mute st |};
               subtitlesStyle := Some {| size := st_subScale st |} |}
  end.

Definition turnoff : M ReceiverStatus :=
  try_catch (connection "quit" [] ;; ret tt) (fun _ => ret tt) ;;
  let* cur := get_current in
  (if truthy_string cur then release cur else ret tt) ;;
  status.

Definition getStreamUrl (session : string) (stream : MediaStream) : string :=
  sender_url w (Str session) (Str (stream_id stream)).

Definition is_type (t : MediaStreamType) (stream : MediaStream) : bool :=
  match t, stream_type stream with
  | Video, Video | Audio, Audio | Subtitles, Subtitles => true
  | _, _ => false
  end.

Definition no_video_error : JsError :=
  mkError PlainError
    "Trying to play media with no video stream is not currently supported.".

Definition same_session (a b : option string) : bool :=
  match a, b with
  | Some x, Some y => String.eqb x y
  | None, None => true
  | _, _ => false
  end.

(** [customOptions] only feeds the local [playOptions], which [play]
    never reads. *)
Definition play (id : string) (customOptions : JsVal) : M ReceiverStatus :=
  let* entry := get (Some id) in
  let video := List.find (is_type Video) (streams entry) in
  let subtitles := List.find (is_type Subtitles) (streams entry) in
  try_catch
    (match video with
     | None => throw no_video_error
     | Some video =>
         let* cur := get_current in
         (if negb (same_session cur None) && negb (same_session cur (Some id))
          then release cur else ret tt) ;;
         let videoUrl := getStreamUrl id video in
         let subtitlesUrl :=
           match subtitles with
           | Some subtitles => Str (getStreamUrl id subtitles)
           | None => Null
           end in
         connection "play" [Str videoUrl; subtitlesUrl] ;;
         set_current (Some id) ;;
         emit "play" (Some id)
     end)
    (fun err =>
       release (Some id) ;;
       let* cur := get_current in
       (if same_session cur (Some id) then set_current None else ret tt) ;;
       throw err) ;;
  status.

Definition pause : M ReceiverStatus :=
  connection "pause" [] ;;
  let* cur := get_current in
  emit "pause" cur ;;
  connection "showProgress" [] ;;
  status.

Definition resume : M ReceiverStatus :=
  connection "resume" [] ;;
  let* cur := get_current in
  emit "resume" cur ;;
  connection "showProgress" [] ;;
  status.

Definition stop : M ReceiverStatus :=
  connection "stop" [] ;;
  let* cur := get_current in
  release cur ;;
  let* id := get_current in
  set_current None ;;
  emit "stop" id ;;
  status.

Definition seek (time : JsVal) : M ReceiverStatus :=
  connection "seek" [time] ;;
  connection "showProgress" [] ;;
  status.

Definition seekTo (time : JsVal) : M ReceiverStatus :=
  connection "goToPosition" [time] ;;
  connection "showProgress" [] ;;
  status.

Definition mute : M ReceiverStatus :=
  connection "mute" [] ;; status.

Definition unmute : M ReceiverStatus :=
  connection "unmute" [] ;; status.

Definition setVolume (level : JsVal) : M ReceiverStatus :=
  connection "volume" [level] ;; status.

Definition changeSubtitles (index : JsVal) : M ReceiverStatus := status.

Definition changeSubtitlesSize (size : JsVal) : M ReceiverStatus :=
  connection "subtitleScale" [size] ;; status.

Definition changeSubtitlesStyle (index : JsVal) : M ReceiverStatus := status.

Definition cycleSubtitlesStyle : M ReceiverStatus := status.

Definition toJSON : Value :=
  VSummary "mpv" (cfg_name w) address (cfg_port w).

(** *** Dynamic dispatch *)

(** [ToString], which is also how a value becomes a property key. *)
Fixpoint js_toString (v : JsVal) : string :=
  match v with
  | Undefined => "undefined"
  | Null => "null"
  | Bool true => "true"
  | Bool false => "false"
  | Num q => number_toString rt q
  | Str s => s
  | Arr items =>
      String.concat ","
        (map (fun item =>
                match item with
                | Undefined | Null => ""
                | _ => js_toString item
                end) items)
  | Obj _ => "[object Object]"
  end.

Fixpoint characters (s : string) : list JsVal :=
  match s with
  | EmptyString => []
  | String c rest => Str (String c EmptyString) :: characters rest
  end.

(** [...args]: arrays and strings are iterable, the other values are
    not. *)
Definition spread (args : JsVal) : option (list JsVal) :=
  match args with
  | Arr items => Some items
  | Str s => Some (characters s)
  | _ => None
  end.

(** [name in this] *)
Definition has_property (name : string) : bool :=
  match assoc name own_members, inherited rt name with
  | None, None => false
  | _, _ => true
  end.

Definition not_a_function : JsError := mkError TypeError "is not a function".
Definition not_iterable : JsError := mkError TypeError "is not iterable".
Definition not_an_object : JsError := mkError TypeError "cannot read properties".
(* a class constructor called as a function *)
Definition not_without_new : JsError := mkError TypeError "cannot be invoked without 'new'".

Definition as_bool (m : M bool) : M Value := let* b := m in ret (VBool b).
Definition as_status (m : M ReceiverStatus) : M Value := let* s := m in ret (VStatus s).

(** [this[ name ]( ...args )] for a method [m] of the class; [self] is
    [callCommand] itself. *)
Definition invoke (self : string -> JsVal -> M Value) (m : Method) (args : list JsVal) : M Value :=
  let arg i := nth i args Undefined in
  match m with
  | MConnect => as_bool connect
  | MDisconnect => as_bool disconnect
  | MReconnect => as_bool reconnect
  | MTurnoff => as_status turnoff
  | MGetStreamUrl =>
      match arg 1%nat with
      | Undefined | Null => throw not_an_object
      | stream => ret (VString (sender_url w (arg 0%nat) (property stream "id")))
      end
  | MPlay =>
      match arg 0%nat with
      | Str id => as_status (play id (arg 1%nat))
      | _ =>
          (* no session id: the registry lookup that opens [play] fails *)
          let* _ := get None in ret (VJs Undefined)
      end
  | MPause => as_status pause
  | MResume => as_status resume
  | MStop => as_status stop
  | MStatus => as_status status
  | MSeek => as_status (seek (arg 0%nat))
  | MSeekTo => as_status (seekTo (arg 0%nat))
  | MMute => as_status mute
  | MUnmute => as_status unmute
  | MSetVolume => as_status (setVolume (arg 0%nat))
  | MCallCommand => self (js_toString (arg 0%nat)) (arg 1%nat)
  | MChangeSubtitles => as_status (changeSubtitles (arg 0%nat))
  | MChangeSubtitlesSize => as_status (changeSubtitlesSize (arg 0%nat))
  | MChangeSubtitlesStyle => as_status (changeSubtitlesStyle (arg 0%nat))
  | MCycleSubtitlesStyle => as_status cycleSubtitlesStyle
  | MToJSON => ret toJSON
  end.

(** [callCommand] can be asked to call itself, with a command name and
    an argument array found inside its own argument array; [depth]
    bounds how many times.  [callCommand] below starts from a depth that
    is never used up, so that the completion chosen at depth 0 is never
    the result. *)
Fixpoint callCommand_at (depth : nat) (commandName : string) (args : JsVal) : M Value :=
  let self :=
    match depth with
    | O => fun _ _ => throw not_iterable
    | S depth' => callCommand_at depth'
    end in
  if has_property commandName then
    match spread args with
    | None => throw not_iterable
    | Some items =>
        match assoc commandName own_members with
        | Some (OwnMethod m) => invoke self m items
        | Some OwnData => throw not_a_function
        | Some OwnConstructor => throw not_without_new
        | None =>
            match inherited rt commandName with
            | Some (InheritedMethod body) => body items
            | _ => throw not_a_function
            end
        end
    end
  else throw (mkError InvalidArgumentError "").

(** How deep the self-dispatch of [callCommand] can go on [args]: the
    nested call receives the second item of the array. *)
Fixpoint nesting (args : JsVal) : nat :=
  match args with
  | Arr (_ :: inner :: _) => S (nesting inner)
  | Arr _ => 1
  | Str s => S (String.length s)
  | _ => 0
  end.

Definition callCommand (commandName : string) (args : list JsVal) : M Value :=
  callCommand_at (nesting (Arr args)) commandName (Arr args).

End Methods.

End MpvReceiver.

(** ** KodiConnection: the transport client and its retry / fallback
    policy *)

Module KodiConnection.

(** What a [catch] clause can receive: an error object with the members
    the client inspects, or a primitive value.  [text] is what string
    concatenation makes of the value. *)
Record ErrorObject : Type := mkErrorObject {
  code : option string;
  message : option string;
  data : option string;
  errcode : option string;
  errmessage : option string;
  method : option string;
  text : string
}.

Inductive Thrown : Type :=
| ThrownObject (e : ErrorObject)
| ThrownPrimitive (text : string).

(** [new Error( message )] *)
Definition new_Error (msg : string) : Thrown :=
  ThrownObject (mkErrorObject None (Some msg) None None None None ("Error: " ++ msg)).

Inductive Outcome : Type :=
| Resolved (result : JsVal)
| Rejected (err : Thrown).

(** The HTTP client built by [open]. *)
Record Client : Type := mkClient {
  hostname : option string;
  client_port : Z;
  client_path : string;
  credentials : option (string * option string)
}.

Inductive Io : Type :=
| Opened (hostname : option string)
| Requested (hostname : option string) (command : string) (args : JsVal).

Record Connection : Type := mkConnection {
  address : string;
  port : Z;
  username : option string;
  password : option string;
  fallback : option string;
  usingFallback : bool;
  failedAttemptsAtConnecting : Z;
  client : option Client;
  clientLifetime : option unit;
  io : list Io          (* the opens and requests made so far *)
}.

(** The constructor. *)
Definition new (address : string) (port : Z) (username password fallback : option string) : Connection :=
  mkConnection address port username password fallback false 0 None None [].

(** The device and the network between: whether the [n]-th I/O
    operation of the connection, an open or a request, succeeds. *)
Record Device : Type := mkDevice {
  open_outcome : nat -> option string -> option Thrown;
  request_outcome : nat -> option string -> string -> JsVal -> Outcome
}.

Definition set_failedAttempts (n : Z) (k : Connection) : Connection :=
  mkConnection (address k) (port k) (username k) (password k) (fallback k)
    (usingFallback k) n (client k) (clientLifetime k) (io k).

Definition set_usingFallback (b : bool) (k : Connection) : Connection :=
  mkConnection (address k) (port k) (username k) (password k) (fallback k)
    b (failedAttemptsAtConnecting k) (client k) (clientLifetime k) (io k).

Definition set_client (c : option Client) (k : Connection) : Connection :=
  mkConnection (address k) (port k) (username k) (password k) (fallback k)
    (usingFallback k) (failedAttemptsAtConnecting k) c (clientLifetime k) (io k).

Definition log_io (e : Io) (k : Connection) : Connection :=
  mkConnection (address k) (port k) (username k) (password k) (fallback k)
    (usingFallback k) (failedAttemptsAtConnecting k) (client k) (clientLifetime k)
    (io k ++ [e]).

Definition connected (k : Connection) : bool :=
  match client k with Some _ => true | None => false end.

(** [s.includes( needle )] *)
Fixpoint includes (s needle : string) : bool :=
  String.prefix needle s ||
  match s with
  | EmptyString => false
  | String _ rest => includes rest needle
  end.

Definition has_code (name : string) (e : ErrorObject) : bool :=
  match code e with
  | Some c => String.eqb c name
  | None => false
  end.

Definition show (o : option string) : string := default "undefined" o.

(** A TypeError raised by the language runtime. *)
Definition type_error (msg : string) : Thrown :=
  ThrownObject (mkErrorObject None (Some msg) None None None None ("TypeError: " ++ msg)).

(** [player.type === 'video'] *)
Definition is_video (player : JsVal) : bool :=
  match property player "type" with
  | Str t => String.eqb t "video"
  | _ => false
  end.

(** [activePlayers.find( player => player.type === 'video' )]: the
    first video player, [undefined] when there is none; reading [type]
    off a [null] item on the way throws. *)
Fixpoint find_video (players : list JsVal) : Outcome :=
  match players with
  | [] => Resolved Undefined
  | player :: rest =>
      match player with
      | Undefined | Null => Rejected (type_error "cannot read properties")
      | _ => if is_video player then Resolved player else find_video rest
      end
  end.

(** [v != null] *)
Definition not_null (v : JsVal) : bool :=
  match v with
  | Undefined | Null => false
  | _ => true
  end.

Section Transport.

Context (d : Device).

(** [open] builds the HTTP client for the address in use and talks to
    nobody: nothing in its body fails on a refused or timed-out
    connection.  [open_outcome d] is whatever [await this.open()] may
    still raise, the case the [catch] of the loop in [call] is written
    for; with the body as it stands it is [None]. *)
Definition open (k : Connection) : option Thrown * Connection :=
  let target := if usingFallback k then fallback k else Some (address k) in
  let moment := length (io k) in
  let k := log_io (Opened target) k in
  match open_outcome d moment target with
  | Some err => (Some err, k)
  | None =>
      (None,
       set_client
         (Some {| hostname := target;
                  client_port := port k;
                  client_path := "/jsonrpc";
                  credentials :=
                    match username k with
                    | Some user => Some (user, password k)
                    | None => None
                    end |}) k)
  end.

(** [this.client.request( method, args, callback )] on the open client. *)
Definition request (k : Connection) (command : string) (args : JsVal) : Outcome * Connection :=
  let target := match client k with Some c => hostname c | None => None end in
  let moment := length (io k) in
  (request_outcome d moment target command args,
   log_io (Requested target command args) k).

Definition useFallback (err : Thrown) (k : Connection) : bool * Connection :=
  match err with
  | ThrownObject e =>
      if has_code "ECONNREFUSED" e || has_code "ETIMEDOUT" e then
        let k := set_failedAttempts (failedAttemptsAtConnecting k + 1) k in
        if (1 <? failedAttemptsAtConnecting k)%Z
           || match fallback k with None => true | Some _ => false end
        then (false, k)
        else (true, set_usingFallback (negb (usingFallback k)) k)
      else (false, k)
  | ThrownPrimitive _ => (false, k)
  end.

(** [clientLifetime] is never assigned, so there is nothing to close
    but the fields to clear. *)
Definition close (k : Connection) : Connection :=
  mkConnection (address k) (port k) (username k) (password k) (fallback k)
    (usingFallback k) (failedAttemptsAtConnecting k) None None (io k).

Definition not_ready (err : Thrown) : bool :=
  match err with
  | ThrownObject e =>
      match message e with
      | Some m => negb (String.eqb m "") && includes m "socket not ready"
      | None => false
      end
  | ThrownPrimitive _ => false
  end.

(** The error raised for a failure that is not retried. *)
Definition wrapped (k : Connection) (command : string) (err : Thrown) : Thrown :=
  match err with
  | ThrownObject e =>
      if truthy_string (message e) then
        new_Error (address k ++ " " ++ command ++ " " ++ show (message e) ++ ": "
                   ++ (if truthy_string (data e) then show (data e) else ""))
      else if truthy_string (errcode e) then
        new_Error (address k ++ " " ++ command ++ " " ++ show (errcode e) ++ " "
                   ++ show (errmessage e) ++ ": "
                   ++ (if truthy_string (method e) then show (method e) else ""))
      else new_Error (address k ++ " " ++ command ++ " " ++ text e)
  | ThrownPrimitive t => new_Error (address k ++ " " ++ command ++ " " ++ t)
  end.

(** The loop [while ( !this.connected ) { ... }] at the head of [call];
    [fuel] bounds its iterations.  [None] is a loop still running when
    the fuel is spent. *)
Fixpoint ensure_open (fuel : nat) (k : Connection) : option (option Thrown * Connection) :=
  if connected k then Some (None, k)
  else
    match fuel with
    | O => None
    | S fuel' =>
        match open k with
        | (None, k) => ensure_open fuel' (set_failedAttempts 0 k)
        | (Some err, k) =>
            match useFallback err k with
            | (true, k) => ensure_open fuel' (close k)
            | (false, k) => Some (Some err, set_failedAttempts 0 k)
            end
        end
    end.

(** [call]; [fuel] bounds the recursion depth (and each loop). *)
Fixpoint call (fuel : nat) (k : Connection) (command : string) (args : JsVal)
  : option (Outcome * Connection) :=
  match fuel with
  | O => None
  | S fuel' =>
      match ensure_open fuel' k with
      | None => None
      | Some (Some err, k) => Some (Rejected err, k)
      | Some (None, k) =>
          match request k command args with
          | (Resolved result, k) => Some (Resolved result, set_failedAttempts 0 k)
          | (Rejected err, k) =>
              match useFallback err k with
              | (true, k) => call fuel' (close k) command args
              | (false, k) =>
                  if not_ready err then call fuel' (close k) command args
                  else
                    let k := set_failedAttempts 0 k in
                    Some (Rejected (wrapped k command err), k)
              end
          end
      end
  end.

(** *** The commands built on [call]; every [call] gets the fuel [fuel]. *)

Definition getActivePlayers (fuel : nat) (k : Connection) : option (Outcome * Connection) :=
  call fuel k "Player.GetActivePlayers" (Obj []).

Definition getActiveVideoPlayer (fuel : nat) (k : Connection) : option (Outcome * Connection) :=
  match getActivePlayers fuel k with
  | None => None
  | Some (Rejected err, k) => Some (Rejected err, k)
  | Some (Resolved (Arr players), k) => Some (find_video players, k)
  | Some (Resolved _, k) => Some (Rejected (type_error "find is not a function"), k)
  end.

(** [if ( player != null ) return this.call( command, args( player ) )]
    after [getActiveVideoPlayer]. *)
Definition on_video_player (fuel : nat) (k : Connection) (command : string)
    (args : JsVal -> JsVal) : option (Outcome * Connection) :=
  match getActiveVideoPlayer fuel k with
  | None => None
  | Some (Rejected err, k) => Some (Rejected err, k)
  | Some (Resolved player, k) =>
      if not_null player then call fuel k command (args player)
      else Some (Resolved Undefined, k)
  end.

Definition play (fuel : nat) (k : Connection) (kind id : string) : option (Outcome * Connection) :=
  let file := ("plugin://plugin.video.unicast/play/" ++ kind ++ "/" ++ id)%string in
  call fuel k "Player.Open" (Obj [("item", Obj [("file", Str file)])]).

Definition playSession (fuel : nat) (k : Connection) (session : string)
  : option (Outcome * Connection) :=
  let file := ("plugin://plugin.video.unicast/play-session/" ++ session)%string in
  call fuel k "Player.Open" (Obj [("item", Obj [("file", Str file)])]).

Definition pause (fuel : nat) (k : Connection) : option (Outcome * Connection) :=
  on_video_player fuel k "Player.PlayPause"
    (fun player => Obj [("playerid", property player "playerid"); ("play", Bool false)]).

Definition resume (fuel : nat) (k : Connection) : option (Outcome * Connection) :=
  on_video_player fuel k "Player.PlayPause"
    (fun player => Obj [("playerid", property player "playerid"); ("play", Bool true)]).

Definition stop (fuel : nat) (k : Connection) : option (Outcome * Connection) :=
  on_video_player fuel k "Player.Stop"
    (fun player => Obj [("playerid", property player "playerid")]).

(** [seekRelative] awaits the call and returns nothing. *)
Definition seekRelative (fuel : nat) (k : Connection) (time : Q) : option (Outcome * Connection) :=
  match
    on_video_player fuel k "Player.Seek"
      (fun player =>
         Obj [("playerid", property player "playerid");
              ("value", Obj [("seconds", Num (Math_round time))])])
  with
  | Some (Resolved _, k) => Some (Resolved Undefined, k)
  | other => other
  end.

Definition mute (fuel : nat) (k : Connection) : option (Outcome * Connection) :=
  call fuel k "Application.SetMute" (Obj [("mute", Bool true)]).

Definition unmute (fuel : nat) (k : Connection) : option (Outcome * Connection) :=
  call fuel k "Application.SetMute" (Obj [("mute", Bool false)]).

Definition volume (fuel : nat) (k : Connection) (level : JsVal) : option (Outcome * Connection) :=
  call fuel k "Application.SetVolume" (Obj [("volume", level)]).

Definition showProgress (fuel : nat) (k : Connection) : option (Outcome * Connection) :=
  call fuel k "Input.ShowOSD" (Obj []).

Definition quit (fuel : nat) (k : Connection) : option (Outcome * Connection) :=
  call fuel k "System.Shutdown" (Obj []).

End Transport.

End KodiConnection.

(** ** KodiApi.query *)

Module KodiApi.

(** A JSON-RPC reply, as far as [query] reads it.  Kodi's schema makes
    [limits.start] and [limits.total] numbers and [error.message] a
    string. *)
Record Limits : Type := mkLimits {
  start : Q;
  total : Q
}.

Record ReplyError : Type := mkReplyError {
  message : string
}.

Record ReplyResult : Type := mkReplyResult {
  limits : option Limits;
  members : list (string * JsVal)     (* the other members of [result] *)
}.

Record Body : Type := mkBody {
  error : option ReplyError;          (* absent or [null]: [None] *)
  result : option ReplyResult
}.

(** What [got] resolves to. *)
Record Response : Type := mkResponse {
  statusCode : Z;
  body : string
}.

(** [query], with the members [method] and [params] that every caller
    in the class passes. *)
Record Query : Type := mkQuery {
  query_method : string;
  query_params : JsVal
}.

Record Options : Type := mkOptions {
  returnResponse : bool;
  forceArray : bool
}.

(** The default [options = {}]. *)
Definition no_options : Options := mkOptions false false.

(** The request body before [JSON.stringify]. *)
Definition request_body (q : Query) : JsVal :=
  Obj [ ("jsonrpc", Str "2.0"); ("id", Num 1);
        ("method", Str (query_method q)); ("params", query_params q) ].

Inductive QueryResult : Type :=
| WholeResponse (response : Response)
| Body_ (text : string)
| Value_ (v : JsVal).

Record Api : Type := mkApi {
  address : string;
  port : Z
}.

(** The constructor's defaults. *)
Definition default_api : Api := mkApi "localhost" 8008.

(** The field lists of the class. *)
Definition movieFieldsList : JsVal :=
  Arr (map Str
    [ "title"; "art"; "rating"; "thumbnail"; "playcount"; "file"; "dateadded";
      "lastplayed"; "imdbnumber"; "trailer"; "genre"; "plot"; "tagline"; "year";
      "mpaa"; "runtime" ]).

Definition tvShowFieldsList : JsVal :=
  Arr (map Str
    [ "title"; "art"; "genre"; "plot"; "year"; "rating"; "thumbnail"; "playcount";
      "file"; "fanart"; "imdbnumber"; "watchedepisodes"; "episode"; "season"; "mpaa";
      "dateadded" ]).

Definition tvSeasonFieldsList : JsVal :=
  Arr (map Str [ "art"; "episode"; "season"; "tvshowid"; "watchedepisodes" ]).

Definition tvEpisodeFieldsList : JsVal :=
  Arr (map Str
    [ "title"; "episode"; "playcount"; "season"; "file"; "dateadded"; "firstaired";
      "art"; "runtime"; "lastplayed"; "plot"; "rating" ]).

Section Query.

(** The HTTP layer ([got]) and [JSON.parse]; [port_text] is the port
    as it prints inside the endpoint url. *)
Context (got : string -> JsVal -> Completion Response)
        (JSON_parse : string -> option Body)
        (port_text : Z -> string).

Definition endpoint (api : Api) : string :=
  "http://" ++ address api ++ ":" ++ port_text (port api) ++ "/jsonrpc".

(** [body.result[ name ]] *)
Definition result_member (r : ReplyResult) (name : string) : JsVal :=
  if String.eqb name "limits" then
    match limits r with
    | Some l => Obj [ ("start", Num (start l)); ("total", Num (total l)) ]
    | None => Undefined
    end
  else default Undefined (assoc name (members r)).

Definition is_Array (v : JsVal) : bool :=
  match v with Arr _ => true | _ => false end.

Definition query (api : Api) (q : Query) (kind : option string) (options : Options)
  : Completion QueryResult :=
  match got (endpoint api) (request_body q) with
  | Throw e => Throw e
  | Return response =>
      if negb (truthy_string kind) || returnResponse options then
        Return (WholeResponse response)
      else if negb (truthy_string kind) then
        Return (Body_ (body response))
      else
        match JSON_parse (body response) with
        | None => Throw (mkError SyntaxError "Unexpected token")
        | Some reply =>
            match error reply with
            | Some e =>
                (* the query is written to the console first *)
                Throw (mkError PlainError (message e))
            | None =>
                match result reply with
                | None => Throw (mkError TypeError "cannot read properties")
                | Some r =>
                    if match limits r with
                       | Some l => Qle_bool (total l) (start l)
                       | None => false
                       end
                    then Return (Value_ (Arr []))
                    else
                      let kind := default "" kind in
                      let found :=
                        if truthy (result_member r (kind ++ "s"))
                        then result_member r (kind ++ "s")
                        else result_member r (kind ++ "details") in
                      if negb (is_Array found) && forceArray options
                      then Return (Value_ (Arr [found]))
                      else Return (Value_ found)
                end
            end
        end
  end.

(** [sync] *)
Definition sync (api : Api) : Completion QueryResult :=
  query api (mkQuery "VideoLibrary.Scan" (Obj [])) None no_options.

(** *** The library getters; [params] are the members of the caller's
    object. *)

Definition ascending_by (method : string) : JsVal :=
  Obj [("order", Str "ascending"); ("method", Str method)].

Definition getEpisodes_query (params : list (string * JsVal)) : Query :=
  mkQuery "VideoLibrary.GetEpisodes"
    (Obj (object_spread
            [("properties", tvEpisodeFieldsList); ("sort", ascending_by "episode")] params)).

Definition getEpisodes (api : Api) (params : list (string * JsVal)) : Completion QueryResult :=
  query api (getEpisodes_query params) (Some "episode") no_options.

Definition getSingleEpisode_query (params : list (string * JsVal)) : Query :=
  mkQuery "VideoLibrary.GetEpisodeDetails"
    (Obj (object_spread [("properties", tvEpisodeFieldsList)] params)).

Definition getSingleEpisode (api : Api) (params : list (string * JsVal)) : Completion QueryResult :=
  query api (getSingleEpisode_query params) (Some "episode") no_options.

Definition getSeasons_query (params : list (string * JsVal)) : Query :=
  mkQuery "VideoLibrary.GetSeasons"
    (Obj (object_spread
            [("properties", tvSeasonFieldsList); ("sort", ascending_by "season")] params)).

Definition getSeasons (api : Api) (params : list (string * JsVal)) : Completion QueryResult :=
  query api (getSeasons_query params) (Some "season") no_options.

Definition getSingleSeason_query (params : list (string * JsVal)) : Query :=
  mkQuery "VideoLibrary.GetSeasonDetails"
    (Obj (object_spread [("properties", tvSeasonFieldsList)] params)).

Definition getSingleSeason (api : Api) (params : list (string * JsVal)) : Completion QueryResult :=
  query api (getSingleSeason_query params) (Some "season") no_options.

Definition getShows_query (params : list (string * JsVal)) : Query :=
  mkQuery "VideoLibrary.GetTVShows"
    (Obj (object_spread
            [("properties", tvShowFieldsList); ("sort", ascending_by "title")] params)).

Definition getShows (api : Api) (params : list (string * JsVal)) : Completion QueryResult :=
  query api (getShows_query params) (Some "tvshow") no_options.

Definition getSingleShow_query (params : list (string * JsVal)) : Query :=
  mkQuery "VideoLibrary.GetTVShowDetails"
    (Obj (object_spread [("properties", tvShowFieldsList)] params)).

Definition getSingleShow (api : Api) (params : list (string * JsVal)) : Completion QueryResult :=
  query api (getSingleShow_query params) (Some "tvshow") no_options.

Definition getMovies_query (params : list (string * JsVal)) : Query :=
  mkQuery "VideoLibrary.GetMovies"
    (Obj (object_spread
            [("properties", movieFieldsList); ("sort", ascending_by "title")] params)).

Definition getMovies (api : Api) (params : list (string * JsVal)) : Completion QueryResult :=
  query api (getMovies_query params) (Some "movie") no_options.

Definition getSingleMovie_query (params : list (string * JsVal)) : Query :=
  mkQuery "VideoLibrary.GetMovieDetails"
    (Obj (object_spread [("properties", movieFieldsList)] params)).

Definition getSingleMovie (api : Api) (params : list (string * JsVal)) : Completion QueryResult :=
  query api (getSingleMovie_query params) (Some "movie") no_options.

End Query.

End KodiApi.

(** ** Vocabulary of the properties *)

(** [!status || !status.path]: the player reports no playing media. *)
Definition nothing_playing (reply : option MpvStatus) : bool :=
  match reply with
  | None => true
  | Some st => negb (truthy_string (st_path st))
  end.

(** The calls [status] makes. *)
Definition status_event (e : Event) : Prop :=
  e = Transport "status" [] \/ exists id, e = HistoryLookup id.

(** A registry release of session [id]. *)
Definition released (id : string) (e : Event) : bool :=
  match e with
  | Released (Some i) => String.eqb i id
  | _ => false
  end.

(** A stop command sent to the player. *)
Definition transport_stop (e : Event) : bool :=
  match e with
  | Transport method _ => String.eqb method "stop"
  | _ => false
  end.

(** Any command sent to the player. *)
Definition transport_call (e : Event) : bool :=
  match e with
  | Transport _ _ => true
  | _ => false
  end.

(** How many items of [l] satisfy [p]. *)
Definition times {A} (p : A -> bool) (l : list A) : nat :=
  length (List.filter p l).

(** The receiver once [play id] has released a different current
    session, if there was one. *)
Definition displaced (id : string) (r : Receiver) : Receiver :=
  snd ((if negb (MpvReceiver.same_session (current r) None)
           && negb (MpvReceiver.same_session (current r) (Some id))
        then MediaSessionsManager.release (current r) else ret tt) r).

(** The urls [play] hands to the player. *)
Definition play_arguments (w : World) (id : string) (entry : SessionEntry)
    (video : MediaStream) : list JsVal :=
  [ Str (MpvReceiver.getStreamUrl w id video);
    match List.find (MpvReceiver.is_type Subtitles) (streams entry) with
    | Some subtitles => Str (MpvReceiver.getStreamUrl w id subtitles)
    | None => Null
    end ].

(** [err.code] is ECONNREFUSED or ETIMEDOUT. *)
Definition connectivity (err : KodiConnection.Thrown) : bool :=
  match err with
  | KodiConnection.ThrownObject e =>
      KodiConnection.has_code "ECONNREFUSED" e || KodiConnection.has_code "ETIMEDOUT" e
  | KodiConnection.ThrownPrimitive _ => false
  end.

(** The host the open client talks to. *)
Definition target (k : KodiConnection.Connection) : option string :=
  match KodiConnection.client k with
  | Some c => KodiConnection.hostname c
  | None => None
  end.

(** The host the next [open] will pick. *)
Definition address_in_use (k : KodiConnection.Connection) : option string :=
  if KodiConnection.usingFallback k then KodiConnection.fallback k
  else Some (KodiConnection.address k).

(** [n] times in a row: the client is opened on [host] and the request
    is made there. *)
Fixpoint reopened (host : option string) (command : string) (args : JsVal) (n : nat)
  : list KodiConnection.Io :=
  match n with
  | O => []
  | S n =>
      KodiConnection.Opened host :: KodiConnection.Requested host command args
        :: reopened host command args n
  end.

(** A receiver computation that leaves the registry and the current
    pointer as they are. *)
Definition keeps_sessions {A} (m : M A) : Prop :=
  forall r, records (snd (m r)) = records r /\ current (snd (m r)) = current r.

(** The constructor's arguments are the same in both connections. *)
Definition same_configuration (k k' : KodiConnection.Connection) : Prop :=
  KodiConnection.address k' = KodiConnection.address k /\
  KodiConnection.port k' = KodiConnection.port k /\
  KodiConnection.username k' = KodiConnection.username k /\
  KodiConnection.password k' = KodiConnection.password k /\
  KodiConnection.fallback k' = KodiConnection.fallback k.

(** From [k] to [k']: the configuration is kept, the address in use is
    kept when there is no fallback, and I/O is only added. *)
Definition step (k k' : KodiConnection.Connection) : Prop :=
  same_configuration k k' /\
  (KodiConnection.fallback k = None ->
   KodiConnection.usingFallback k' = KodiConnection.usingFallback k) /\
  exists more, KodiConnection.io k' = KodiConnection.io k ++ more.

(** What a completed [call] leaves behind. *)
Definition settled (k k' : KodiConnection.Connection) : Prop :=
  same_configuration k k' /\
  KodiConnection.failedAttemptsAtConnecting k' = 0%Z /\
  exists more, KodiConnection.io k' = KodiConnection.io k ++ more.

(** The value [extra] gives to [name], the last one if it gives
    several. *)
Definition last_given (name : string) (extra : list (string * JsVal)) : option JsVal :=
  assoc name (rev extra).

(** ** Sample configurations *)

Module Samples.

Definition with_subtitles (id : string) : SessionEntry :=
  mkEntry [ mkStream (id ++ "-video") Video; mkStream (id ++ "-subs") Subtitles ]
          id emptyOptions.

Definition audio_only (id : string) : SessionEntry :=
  mkEntry [ mkStream (id ++ "-audio") Audio ] id emptyOptions.

(** A registry with two playable sessions and one without video. *)
Definition registry : gmap string SessionEntry :=
  <["A" := with_subtitles "A"]>
    (<["B" := with_subtitles "B"]> (<["X" := audio_only "X"]> ∅)).

Definition idle : Receiver := mkReceiver registry None [].
Definition playing_A : Receiver := mkReceiver registry (Some "A") [].
Definition playing_X : Receiver := mkReceiver registry (Some "X") [].

Definition url (session id : JsVal) : string :=
  match session, id with
  | Str s, Str i => "http://unicast/" ++ s ++ "/" ++ i
  | _, _ => "http://unicast/"
  end.

Definition movie : MpvStatus :=
  mkMpvStatus (Some "http://unicast/A/A-video") false 5400 30 80 false 1.

Definition boom : JsError := mkError PlainError "connect ECONNREFUSED".

Definition listener_failure : JsError := mkError PlainError "listener failed".

(** A player that executes every command and reports a running movie. *)
Definition player_on : World :=
  mkWorld (fun _ => false)
    (fun _ method _ => if String.eqb method "status" then Return (Some movie) else Return None)
    (fun _ _ _ => Return tt)
    (fun _ id => Return id)
    url Z.of_nat "living-room" "builtin" 2019.

(** A player that executes every command and has nothing loaded. *)
Definition player_idle : World :=
  mkWorld (fun _ => false)
    (fun _ _ _ => Return None)
    (fun _ _ _ => Return tt)
    (fun _ id => Return id)
    url Z.of_nat "living-room" "builtin" 2019.

(** A player that cannot be reached: every command fails. *)
Definition player_off : World :=
  mkWorld (fun _ => false)
    (fun _ _ _ => Throw boom)
    (fun _ _ _ => Return tt)
    (fun _ id => Return id)
    url Z.of_nat "living-room" "10.0.0.9" 2019.

(** A connection that reports being connected while its [open] fails. *)
Definition player_stale : World :=
  mkWorld (fun _ => true)
    (fun _ _ _ => Throw boom)
    (fun _ _ _ => Return tt)
    (fun _ id => Return id)
    url Z.of_nat "living-room" "10.0.0.9" 2019.

(** A connected player with nothing loaded. *)
Definition player_connected : World :=
  mkWorld (fun _ => true)
    (fun _ _ _ => Return None)
    (fun _ _ _ => Return tt)
    (fun _ id => Return id)
    url Z.of_nat "living-room" "builtin" 2019.

(** A working player, and a listener of the play event that throws. *)
Definition listener_throws : World :=
  mkWorld (fun _ => false)
    (fun _ _ _ => Return None)
    (fun _ name _ => if String.eqb name "play" then Throw listener_failure else Return tt)
    (fun _ id => Return id)
    url Z.of_nat "living-room" "builtin" 2019.

(** [play A] on the idle receiver with the player on. *)
Definition after_play_A : Receiver :=
  snd (MpvReceiver.play player_on "A" Undefined idle).

Definition status_of_A : ReceiverStatus :=
  match fst (MpvReceiver.play player_on "A" Undefined idle) with
  | Return s => s
  | Throw _ => MpvReceiver.stoppedStatus 0
  end.

(** [stop] on a receiver playing A, the player then having nothing
    loaded. *)
Definition after_stop : Receiver :=
  snd (MpvReceiver.stop player_idle playing_A).

(** A runtime in which the receiver inherits nothing. *)
Definition bare_runtime : Runtime := mkRuntime (fun _ => "0") (fun _ => None).

Definition refused : KodiConnection.Thrown :=
  KodiConnection.ThrownObject
    (KodiConnection.mkErrorObject (Some "ECONNREFUSED")
       (Some "connect ECONNREFUSED") None None None None "Error: connect ECONNREFUSED").

Definition socket_not_ready : KodiConnection.Thrown :=
  KodiConnection.ThrownObject
    (KodiConnection.mkErrorObject None (Some "Error: socket not ready") None None None None
       "Error: socket not ready").

(** A connection with a fallback address, not yet opened. *)
Definition kodi : KodiConnection.Connection :=
  KodiConnection.new "10.0.0.2" 8080 None None (Some "10.0.0.3").

(** The same connection, open on the primary address. *)
Definition kodi_open : KodiConnection.Connection :=
  KodiConnection.set_client
    (Some (KodiConnection.mkClient (Some "10.0.0.2") 8080 "/jsonrpc" None)) kodi.

(** Both addresses refuse every request; opening always works. *)
Definition always_refuses : KodiConnection.Device :=
  KodiConnection.mkDevice (fun _ _ => None) (fun _ _ _ _ => KodiConnection.Rejected refused).

(** The first two requests are refused, the third is answered. *)
Definition refuses_twice : KodiConnection.Device :=
  KodiConnection.mkDevice (fun _ _ => None)
    (fun n _ _ _ =>
       if (n <? 5)%nat then KodiConnection.Rejected refused
       else KodiConnection.Resolved (Str "OK")).

(** The first request finds the socket not ready, the next is answered. *)
Definition not_ready_once : KodiConnection.Device :=
  KodiConnection.mkDevice (fun _ _ => None)
    (fun n _ _ _ =>
       if (n <? 1)%nat then KodiConnection.Rejected socket_not_ready
       else KodiConnection.Resolved (Str "OK")).

(** The first two requests find the socket not ready, the third is
    answered. *)
Definition not_ready_twice : KodiConnection.Device :=
  KodiConnection.mkDevice (fun _ _ => None)
    (fun n _ _ _ =>
       if (n <? 3)%nat then KodiConnection.Rejected socket_not_ready
       else KodiConnection.Resolved (Str "OK")).

Definition empty_page : KodiApi.Body :=
  KodiApi.mkBody None (Some (KodiApi.mkReplyResult (Some (KodiApi.mkLimits 0 0)) [])).

Definition error_reply : KodiApi.Body :=
  KodiApi.mkBody (Some (KodiApi.mkReplyError "Invalid params.")) None.

(** A parser that knows the two replies above. *)
Definition parse (text : string) : option KodiApi.Body :=
  if String.eqb text "empty" then Some empty_page
  else if String.eqb text "error" then Some error_reply
  else None.

Definition replies (text : string) : string -> JsVal -> Completion KodiApi.Response :=
  fun _ _ => Return (KodiApi.mkResponse 200 text).

Definition port_text (p : Z) : string := "8008".

(** [status] on a receiver playing A with the player on. *)
Definition status_playing_A : ReceiverStatus :=
  match fst (MpvReceiver.status player_on playing_A) with
  | Return s => s
  | Throw _ => MpvReceiver.stoppedStatus 0
  end.

(** The player accepts every command, but its status cannot be read. *)
Definition status_unreadable : World :=
  mkWorld (fun _ => false)
    (fun _ method _ => if String.eqb method "status" then Throw boom else Return None)
    (fun _ _ _ => Return tt)
    (fun _ id => Return id)
    url Z.of_nat "living-room" "builtin" 2019.

(** A connection without a fallback address, open on its address. *)
Definition kodi_plain : KodiConnection.Connection :=
  KodiConnection.set_client
    (Some (KodiConnection.mkClient (Some "10.0.0.2") 8080 "/jsonrpc" None))
    (KodiConnection.new "10.0.0.2" 8080 None None None).

Definition invalid_params : KodiConnection.Thrown :=
  KodiConnection.ThrownObject
    (KodiConnection.mkErrorObject None (Some "Invalid params.") (Some "playerid") None None None
       "Error: Invalid params.").

(** Every request is rejected with the same error, one that carries a
    message and data. *)
Definition rejects_params : KodiConnection.Device :=
  KodiConnection.mkDevice (fun _ _ => None)
    (fun _ _ _ _ => KodiConnection.Rejected invalid_params).

(** The primary address refuses requests, the fallback answers them. *)
Definition primary_refuses : KodiConnection.Device :=
  KodiConnection.mkDevice (fun _ _ => None)
    (fun _ host _ _ =>
       if decide (host = Some "10.0.0.2") then KodiConnection.Rejected refused
       else KodiConnection.Resolved (Str "OK")).

Definition audio_player : JsVal :=
  Obj [("playerid", Num 0); ("playertype", Str "internal"); ("type", Str "audio")].

Definition video_player : JsVal :=
  Obj [("playerid", Num 1); ("playertype", Str "internal"); ("type", Str "video")].

(** A device with the given active players, which answers OK to every
    other command. *)
Definition device_with (players : list JsVal) : KodiConnection.Device :=
  KodiConnection.mkDevice (fun _ _ => None)
    (fun _ _ command _ =>
       if String.eqb command "Player.GetActivePlayers"
       then KodiConnection.Resolved (Arr players)
       else KodiConnection.Resolved (Str "OK")).

Definition movie_details : JsVal := Obj [("title", Str "Alien"); ("year", Num 1979)].

(** A reply to a details query, and a reply whose result has no
    members. *)
Definition details_reply : KodiApi.Body :=
  KodiApi.mkBody None (Some (KodiApi.mkReplyResult None [("moviedetails", movie_details)])).

Definition bare_reply : KodiApi.Body :=
  KodiApi.mkBody None (Some (KodiApi.mkReplyResult None [])).

Definition parse_details (text : string) : option KodiApi.Body :=
  if String.eqb text "details" then Some details_reply
  else if String.eqb text "bare" then Some bare_reply
  else None.

End Samples.

(** * Properties *)

(** ** Counting events *)

Lemma times_app {A} (p : A -> bool) (l1 l2 : list A) :
  times p (l1 ++ l2) = times p l1 + times p l2.
Proof. unfold times. rewrite List.filter_app, length_app. reflexivity. Qed.

Lemma status_events_not_released id evs :
  Forall status_event evs -> times (released id) evs = 0.
Proof. induction 1 as [|e evs [->|[i ->]] _ IH]; simpl; auto. Qed.

Lemma status_events_not_stop evs :
  Forall status_event evs -> times transport_stop evs = 0.
Proof. induction 1 as [|e evs [->|[i ->]] _ IH]; simpl; auto. Qed.

(** ** The MPV receiver *)

Section ReceiverProperties.

Import MediaSessionsManager MpvReceiver.

Context (w : World).

Lemma now_record_event e r : now (record_event e r) = S (now r).
Proof. unfold now, record_event; simpl. rewrite length_app; simpl; lia. Qed.

(** *** status *)

Lemma status_when_transport_raises r e :
  connection_call w (now r) "status" [] = Throw e ->
  status w r = (Throw e, record_event (Transport "status" []) r).
Proof.
  intros H. unfold status, bind, connection. rewrite H. reflexivity.
Qed.

Lemma status_when_nothing_plays r reply :
  connection_call w (now r) "status" [] = Return reply ->
  nothing_playing reply = true ->
  status w r = (Return (stoppedStatus (clock w (S (now r)))),
                record_event (Transport "status" []) r).
Proof.
  intros H Hn. unfold status, bind, connection. rewrite H.
  destruct reply as [st|]; simpl in Hn.
  - rewrite Hn. unfold new_Date, ret. rewrite now_record_event. reflexivity.
  - unfold new_Date, ret. rewrite now_record_event. reflexivity.
Qed.

(** [status] leaves the registry and the pointer alone, and only talks
    to the player and the history table. *)
Lemma status_frame r c r' :
  status w r = (c, r') ->
  records r' = records r /\ current r' = current r /\
  exists evs, trace r' = trace r ++ evs /\ Forall status_event evs.
Proof.
  unfold status, bind, connection, new_Date, ret, get_current, get, history.
  destruct (connection_call w (now r) "status" []) as [[st|]|e]; simpl;
    [ destruct (negb (truthy_string (st_path st))); simpl;
      [ | destruct (current r) as [c0|] eqn:Hcur; simpl;
          [ destruct (records r !! c0); simpl;
            [ destruct (history_get w _ (Some c0)) | ] | ] ] | | ];
    intros [= <- <-]; simpl; (split; [reflexivity | split; [simpl; congruence|]]);
    rewrite <- ?app_assoc; eexists; (split; [ reflexivity | ]);
    repeat (apply List.Forall_cons;
            [ first [ left; reflexivity | right; eexists; reflexivity ] | ]);
    apply List.Forall_nil.
Qed.

(** With no current session, a status that is returned at all is the
    Stopped snapshot. *)
Lemma status_without_session r s r' :
  current r = None ->
  status w r = (Return s, r') ->
  s = stoppedStatus (clock w (S (now r))) /\
  r' = record_event (Transport "status" []) r.
Proof.
  intros Hc. unfold status, bind, connection, new_Date, ret, get_current, get.
  destruct (connection_call w (now r) "status" []) as [[st|]|e]; simpl.
  - destruct (negb (truthy_string (st_path st))); simpl.
    + rewrite now_record_event. intros [= <- <-]. split; reflexivity.
    + rewrite Hc. simpl. intros [=].
  - rewrite now_record_event. intros [= <- <-]. split; reflexivity.
  - intros [=].
Qed.

(** The player reports a path while the receiver has no current
    session: the registry lookup fails and so does [status]. *)
Lemma status_raises_on_unknown_session r st :
  connection_call w (now r) "status" [] = Return (Some st) ->
  truthy_string (st_path st) = true ->
  current r = None ->
  status w r = (Throw (mkError SessionNotFoundError "null"),
                record_event (Transport "status" []) r).
Proof.
  intros H Hp Hc. unfold status, bind, connection, get_current, get. rewrite H, Hp.
  simpl. rewrite Hc. reflexivity.
Qed.

(** *** play *)

Lemma displaced_current id r : current (displaced id r) = current r.
Proof.
  unfold displaced.
  destruct (negb (same_session (current r) None) && negb (same_session (current r) (Some id)));
    reflexivity.
Qed.

Lemma displaced_shape id r :
  displaced id r = r /\ (current r = None \/ current r = Some id) \/
  exists c, current r = Some c /\ c <> id /\
    displaced id r = mkReceiver (delete c (records r)) (Some c) (trace r ++ [Released (Some c)]).
Proof.
  unfold displaced. destruct (current r) as [c|] eqn:Hc; simpl.
  - destruct (String.eqb c id) eqn:He; simpl.
    + apply String.eqb_eq in He. subst. left; auto.
    + apply String.eqb_neq in He. right. exists c.
      unfold release, record_event; simpl. rewrite Hc. auto.
  - left; auto.
Qed.

(** The three ways [play] can go once the session resolves to a video
    stream: the player refuses, a listener of the play event throws, or
    the setup completes and the status is read back. *)
Lemma play_outcomes r id opts entry video c r2 :
  records r !! id = Some entry ->
  List.find (is_type Video) (streams entry) = Some video ->
  play w id opts r = (c, r2) ->
  (exists e,
      connection_call w (now (displaced id r)) "play" (play_arguments w id entry video) = Throw e /\
      c = Throw e /\
      r2 = mkReceiver (delete id (records (displaced id r)))
             (if same_session (current r) (Some id) then None else current r)
             (trace (displaced id r)
                ++ [Transport "play" (play_arguments w id entry video); Released (Some id)]))
  \/
  (exists reply e,
      connection_call w (now (displaced id r)) "play" (play_arguments w id entry video)
        = Return reply /\
      listeners w (S (now (displaced id r))) "play" (Some id) = Throw e /\
      c = Throw e /\
      r2 = mkReceiver (delete id (records (displaced id r))) None
             (trace (displaced id r)
                ++ [Transport "play" (play_arguments w id entry video);
                    Emitted "play" (Some id); Released (Some id)]))
  \/
  (exists reply,
      connection_call w (now (displaced id r)) "play" (play_arguments w id entry video)
        = Return reply /\
      listeners w (S (now (displaced id r))) "play" (Some id) = Return tt /\
      status w (mkReceiver (records (displaced id r)) (Some id)
                  (trace (displaced id r)
                     ++ [Transport "play" (play_arguments w id entry video);
                         Emitted "play" (Some id)])) = (c, r2)).
Proof.
  intros Hentry Hvideo.
  set (r1 := displaced id r). set (args := play_arguments w id entry video).
  unfold play, bind at 1. unfold get. rewrite Hentry. rewrite Hvideo.
  fold (play_arguments w id entry video). fold args. clearbody args.
  assert (Hstep :
     (if negb (same_session (current r) None) && negb (same_session (current r) (Some id))
        then release (current r) else ret tt) r = (Return tt, r1)).
  { subst r1. unfold displaced.
    destruct (negb (same_session (current r) None) && negb (same_session (current r) (Some id)));
      reflexivity. }
  assert (Hcur : current r1 = current r) by apply displaced_current.
  unfold try_catch, bind, get_current. rewrite Hstep.
  unfold connection, set_current, emit, release, throw, ret, now, record_event. simpl.
  rewrite !length_app. simpl. rewrite Nat.add_1_r. fold (now r1).
  destruct (connection_call w (now r1) "play" args) as [reply|e] eqn:Hcall; simpl.
  - destruct (listeners w (S (now r1)) "play" (Some id)) as [[]|e] eqn:Hemit; simpl.
    + intros Hstatus. right; right. exists reply. rewrite <- app_assoc in Hstatus. auto.
    + rewrite String.eqb_refl. simpl. intros [= <- <-]. right; left. exists reply, e.
      rewrite <- !app_assoc. auto.
  - rewrite Hcur.
    destruct (same_session (current r) (Some id)); simpl; intros [= <- <-];
      left; exists e; rewrite <- ?app_assoc; rewrite ?Hcur; auto.
Qed.

Lemma play_without_video r id opts entry :
  records r !! id = Some entry ->
  List.find (is_type Video) (streams entry) = None ->
  play w id opts r =
    (Throw no_video_error,
     mkReceiver (delete id (records r))
       (if same_session (current r) (Some id) then None else current r)
       (trace r ++ [Released (Some id)])).
Proof.
  intros Hentry Hvideo.
  unfold play, bind at 1. unfold get. rewrite Hentry, Hvideo.
  unfold try_catch, bind, throw, release, get_current, set_current, ret, record_event; simpl.
  destruct (same_session (current r) (Some id)); reflexivity.
Qed.

Lemma play_resolves r id opts s r' :
  play w id opts r = (Return s, r') ->
  exists entry video,
    records r !! id = Some entry /\
    List.find (is_type Video) (streams entry) = Some video.
Proof.
  intros Hplay.
  destruct (records r !! id) as [entry|] eqn:Hentry.
  - destruct (List.find (is_type Video) (streams entry)) as [video|] eqn:Hvideo; [eauto|].
    rewrite (play_without_video _ _ _ _ Hentry Hvideo) in Hplay. discriminate.
  - unfold play, bind at 1 in Hplay. unfold get in Hplay. rewrite Hentry in Hplay.
    discriminate.
Qed.

(** A [play] that returns has made its session current without
    releasing it and without sending a stop to the player. *)
Lemma play_returned r id opts s r' :
  play w id opts r = (Return s, r') ->
  current r' = Some id /\
  records r' = records (displaced id r) /\
  exists evs, trace r' = trace r ++ evs /\
    times (released id) evs = 0 /\ times transport_stop evs = 0.
Proof.
  intros Hplay.
  destruct (play_resolves _ _ _ _ _ Hplay) as (entry & video & Hentry & Hvideo).
  destruct (play_outcomes _ _ _ _ _ _ _ Hentry Hvideo Hplay)
    as [(e & _ & [=] & _) | [(reply & e & _ & _ & [=] & _) | (reply & _ & _ & Hstatus)]].
  apply status_frame in Hstatus. simpl in Hstatus.
  destruct Hstatus as (Hrec & Hcur & sevs & Htrace & Hsevs).
  split; [assumption|]. split; [assumption|].
  destruct (displaced_shape id r) as [[Hd _] | (c & Hc & Hne & Hd)]; rewrite Hd in Htrace.
  - eexists. rewrite Htrace, <- app_assoc. split; [reflexivity|].
    rewrite !times_app, (status_events_not_released _ _ Hsevs), (status_events_not_stop _ Hsevs).
    split; reflexivity.
  - simpl in Htrace. eexists. rewrite Htrace, <- !app_assoc. split; [reflexivity|].
    rewrite !times_app, (status_events_not_released _ _ Hsevs), (status_events_not_stop _ Hsevs).
    simpl. apply String.eqb_neq in Hne. unfold times; simpl. rewrite Hne. split; reflexivity.
Qed.

(** The status read-back at the end of [play] lies outside the guarded
    block: when it is what fails, the session stays current and stays
    in the registry. *)
Lemma play_read_back_failure_keeps_session r id opts entry video reply e r2 :
  records r !! id = Some entry ->
  List.find (is_type Video) (streams entry) = Some video ->
  connection_call w (now (displaced id r)) "play" (play_arguments w id entry video)
    = Return reply ->
  listeners w (S (now (displaced id r))) "play" (Some id) = Return tt ->
  play w id opts r = (Throw e, r2) ->
  current r2 = Some id /\ records r2 !! id = Some entry.
Proof.
  intros Hentry Hvideo Hcall Hemit Hplay.
  destruct (play_outcomes _ _ _ _ _ _ _ Hentry Hvideo Hplay)
    as [(e' & Hcall' & _) | [(reply' & e' & _ & Hemit' & _) | (reply' & _ & _ & Hstatus)]];
    [congruence | congruence | ].
  apply status_frame in Hstatus. simpl in Hstatus.
  destruct Hstatus as (Hrec & Hcur & _). split; [assumption|].
  rewrite Hrec.
  destruct (displaced_shape id r) as [[-> _] | (c & Hc & Hne & ->)]; simpl; [assumption|].
  rewrite lookup_delete_ne by assumption. assumption.
Qed.

(** *** Claims about the receiver *)

(** C1, as amended.  For every receiver state, with or without a
    current session: when the player's status query returns and reports
    no playing media, [status] returns the canonical Stopped snapshot,
    whose record, session and transcoding members are null; when the
    status query itself raises, as it does for a player that cannot be
    reached, [status] raises that same error. *)
Theorem status_stopped_or_raises r :
  (forall reply,
      connection_call w (now r) "status" [] = Return reply ->
      nothing_playing reply = true ->
      exists s,
        status w r = (Return s, record_event (Transport "status" []) r) /\
        s = stoppedStatus (timestamp s) /\
        state s = Stopped /\
        record (media s) = None /\ session (media s) = None /\
        transcoding (media s) = None) /\
  (forall e,
      connection_call w (now r) "status" [] = Throw e ->
      status w r = (Throw e, record_event (Transport "status" []) r)).
Proof.
  split.
  - intros reply Hcall Hnothing. eexists. split.
    + apply (status_when_nothing_plays _ _ Hcall Hnothing).
    + repeat split.
  - apply status_when_transport_raises.
Qed.

(** C2, as amended.  For every prior pointer value and every session id
    X that resolves to a video stream: if the player accepts the play
    command, so that the pointer is set to X, and the play notification
    then raises, [play] re-raises that error, leaves the pointer null
    (cleared, whatever it was before) and has released X, once. *)
Theorem play_failure_clears_pointer r id opts entry video reply e :
  records r !! id = Some entry ->
  List.find (is_type Video) (streams entry) = Some video ->
  connection_call w (now (displaced id r)) "play" (play_arguments w id entry video)
    = Return reply ->
  listeners w (S (now (displaced id r))) "play" (Some id) = Throw e ->
  exists r',
    play w id opts r = (Throw e, r') /\
    current r' = None /\
    records r' !! id = None /\
    times (released id) (drop (length (trace r)) (trace r')) = 1.
Proof.
  intros Hentry Hvideo Hcall Hemit.
  destruct (play w id opts r) as [c r'] eqn:Hplay. exists r'.
  destruct (play_outcomes _ _ _ _ _ _ _ Hentry Hvideo Hplay)
    as [(e' & Hcall' & _) | [(reply' & e' & _ & Hemit' & -> & ->) | (reply' & _ & Hemit' & _)]];
    [congruence | | congruence].
  assert (e' = e) as -> by congruence.
  split; [reflexivity|]. split; [reflexivity|]. split; [apply lookup_delete_eq|].
  simpl.
  destruct (displaced_shape id r) as [[-> _] | (c & Hc & Hne & ->)]; simpl.
  - rewrite drop_app_length. unfold times; simpl. rewrite String.eqb_refl. reflexivity.
  - rewrite <- app_assoc, drop_app_length. unfold times; simpl.
    apply String.eqb_neq in Hne. rewrite Hne, String.eqb_refl. reflexivity.
Qed.

(** C3, as amended.  For distinct session ids A and B: after a [play A]
    that returned, a [play B] whose session resolves to a video stream
    releases A from the registry exactly once and sends no stop command
    to the player, whether the play command for B then succeeds or
    fails; and B is the current session as soon as the player accepts
    the play command and the play notification is delivered. *)
Theorem play_displaces_previous_session r A B optsA optsB sA rA entry video :
  A <> B ->
  play w A optsA r = (Return sA, rA) ->
  records rA !! B = Some entry ->
  List.find (is_type Video) (streams entry) = Some video ->
  exists evs c rB,
    play w B optsB rA = (c, rB) /\
    trace rB = trace r ++ evs /\
    times (released A) evs = 1 /\
    times transport_stop evs = 0 /\
    records rB !! A = None /\
    (forall reply,
        connection_call w (S (now rA)) "play" (play_arguments w B entry video) = Return reply ->
        listeners w (S (S (now rA))) "play" (Some B) = Return tt ->
        current rB = Some B).
Proof.
  intros Hne HplayA Hentry Hvideo.
  destruct (play_returned _ _ _ _ _ HplayA) as (HcurA & _ & evsA & HtraceA & HrelA & HstopA).
  assert (Hd : displaced B rA =
               mkReceiver (delete A (records rA)) (Some A) (trace rA ++ [Released (Some A)])).
  { destruct (displaced_shape B rA) as [[_ [H|H]] | (c & Hc & _ & ->)]; congruence. }
  assert (Hnow : now (displaced B rA) = S (now rA)).
  { rewrite Hd. unfold now; simpl. rewrite length_app; simpl; lia. }
  assert (HBA : String.eqb B A = false) by (apply String.eqb_neq; congruence).
  destruct (play w B optsB rA) as [c rB] eqn:HplayB.
  destruct (play_outcomes _ _ _ _ _ _ _ Hentry Hvideo HplayB)
    as [(e & Hcall & -> & ->)
       | [(reply & e & Hcall & Hemit & -> & ->) | (reply & Hcall & Hemit & Hstatus)]];
    rewrite Hnow in *.
  - eexists _, _, _. split; [reflexivity|]. rewrite Hd; simpl.
    rewrite HtraceA, <- !app_assoc. split; [reflexivity|].
    rewrite !times_app, HrelA, HstopA. unfold times; simpl.
    rewrite String.eqb_refl, HBA. repeat split; try reflexivity.
    + rewrite lookup_delete_ne by congruence. apply lookup_delete_eq.
    + intros; congruence.
  - eexists _, _, _. split; [reflexivity|]. rewrite Hd; simpl.
    rewrite HtraceA, <- !app_assoc. split; [reflexivity|].
    rewrite !times_app, HrelA, HstopA. unfold times; simpl.
    rewrite String.eqb_refl, HBA. repeat split; try reflexivity.
    + rewrite lookup_delete_ne by congruence. apply lookup_delete_eq.
    + intros; congruence.
  - apply status_frame in Hstatus. simpl in Hstatus.
    destruct Hstatus as (Hrec & Hcur & sevs & Htrace & Hsevs).
    rewrite Hd in Hrec, Htrace. simpl in Hrec, Htrace.
    eexists _, _, _. split; [reflexivity|].
    rewrite Htrace, HtraceA, <- !app_assoc. split; [reflexivity|].
    rewrite !times_app, HrelA, HstopA,
      (status_events_not_released _ _ Hsevs), (status_events_not_stop _ Hsevs).
    unfold times; simpl. rewrite String.eqb_refl. repeat split; try reflexivity.
    + rewrite Hrec. apply lookup_delete_eq.
    + intros; assumption.
Qed.

(** C4, as amended.  For every session id whose registry entry has no
    video stream, [play] fails with the no-video error and sends
    nothing to the player; it does release that session from the
    registry, and clears the current pointer when the pointer was this
    very session (any other pointer value is kept). *)
Theorem play_without_video_releases_session r id opts entry :
  records r !! id = Some entry ->
  List.find (is_type Video) (streams entry) = None ->
  exists r',
    play w id opts r = (Throw no_video_error, r') /\
    trace r' = trace r ++ [Released (Some id)] /\
    times transport_call (drop (length (trace r)) (trace r')) = 0 /\
    records r' = delete id (records r) /\
    current r' = (if same_session (current r) (Some id) then None else current r).
Proof.
  intros Hentry Hvideo. eexists. split; [apply (play_without_video _ _ _ _ Hentry Hvideo)|].
  simpl. rewrite drop_app_length. repeat split.
Qed.

(** C7.  After a [stop] that returns: the session that was current is
    no longer in the registry, the pointer is null, the calls made are,
    in this order, the stop command, the registry release, the stop
    notification carrying the id of that session and the status query;
    the status returned has a null session and state Stopped, and so
    has every status returned while the pointer stays null. *)
Theorem stop_releases_and_reports_stopped r s r' :
  stop w r = (Return s, r') ->
  (forall id, current r = Some id -> records r' !! id = None) /\
  current r' = None /\
  trace r' = trace r ++ [ Transport "stop" []; Released (current r);
                          Emitted "stop" (current r); Transport "status" [] ] /\
  session (media s) = None /\
  state s = Stopped /\
  (forall r2 s2 r2',
      current r2 = None -> status w r2 = (Return s2, r2') ->
      session (media s2) = None /\ state s2 = Stopped).
Proof.
  unfold stop, bind, connection, get_current, release, set_current, emit, record_event; simpl.
  destruct (connection_call w (now r) "stop" []) as [reply|e]; [simpl | discriminate].
  destruct (listeners w _ "stop" (current r)) as [[]|e]; [simpl | discriminate].
  intros Hstatus.
  assert (Hlater : forall r2 s2 r2', current r2 = None -> status w r2 = (Return s2, r2') ->
                     session (media s2) = None /\ state s2 = Stopped).
  { intros r2 s2 r2' Hc H. destruct (status_without_session _ _ _ Hc H) as [-> _].
    split; reflexivity. }
  apply status_without_session in Hstatus; [|reflexivity].
  destruct Hstatus as [-> ->].
  unfold record_event; simpl. rewrite <- !app_assoc. simpl.
  split.
  { intros id ->. apply lookup_delete_eq. }
  repeat split; try reflexivity; eapply Hlater; eauto.
Qed.

(** C10, as amended.  When the connection reports not connected,
    [connect] returns true and makes no call at all; when it reports
    connected, [connect] calls the transport's [open], and then returns
    true if that call returns and raises its error if it raises. *)
Theorem connect_opens_only_when_connected r :
  (connection_connected w (now r) = false -> connect w r = (Return true, r)) /\
  (connection_connected w (now r) = true ->
     forall reply, connection_call w (now r) "open" [] = Return reply ->
       connect w r = (Return true, record_event (Transport "open" []) r)) /\
  (connection_connected w (now r) = true ->
     forall e, connection_call w (now r) "open" [] = Throw e ->
       connect w r = (Throw e, record_event (Transport "open" []) r)).
Proof.
  unfold connect, bind, connection_is_connected, connection, ret.
  repeat split; intros Hc; [ | intros reply Hcall | intros e Hcall ];
    rewrite Hc; [reflexivity | rewrite Hcall; reflexivity | rewrite Hcall; reflexivity].
Qed.

End ReceiverProperties.

(** *** The receiver claims on the sample configurations *)

(** C1 on two samples: an idle player, and a player that cannot be
    reached. *)
Lemma status_stopped_or_raises_witness :
  (exists s,
      MpvReceiver.status Samples.player_idle Samples.idle
        = (Return s, record_event (Transport "status" []) Samples.idle) /\
      s = MpvReceiver.stoppedStatus (timestamp s) /\
      state s = Stopped /\
      record (media s) = None /\ session (media s) = None /\
      transcoding (media s) = None) /\
  MpvReceiver.status Samples.player_off Samples.playing_A
    = (Throw Samples.boom, record_event (Transport "status" []) Samples.playing_A).
Proof.
  split.
  - apply (proj1 (status_stopped_or_raises Samples.player_idle Samples.idle) None);
      reflexivity.
  - apply (proj2 (status_stopped_or_raises Samples.player_off Samples.playing_A));
      reflexivity.
Defined.

(** C1 as stated fails: [status] raises when the player cannot be
    reached, and also when the player reports a playing path while the
    receiver has no current session. *)
Lemma status_raises_for_unreachable_player :
  MpvReceiver.status Samples.player_off Samples.idle
    = (Throw Samples.boom, record_event (Transport "status" []) Samples.idle) /\
  MpvReceiver.status Samples.player_on Samples.idle
    = (Throw (mkError SessionNotFoundError "null"),
       record_event (Transport "status" []) Samples.idle).
Proof. split; reflexivity. Qed.

(** C2 on a sample: A is current, the listener of the play event
    throws during [play B]. *)
Lemma play_failure_clears_pointer_witness :
  exists r',
    MpvReceiver.play Samples.listener_throws "B" Undefined Samples.playing_A
      = (Throw Samples.listener_failure, r') /\
    current r' = None /\
    records r' !! "B" = None /\
    times (released "B") (drop (length (trace Samples.playing_A)) (trace r')) = 1.
Proof.
  apply (play_failure_clears_pointer Samples.listener_throws Samples.playing_A "B" Undefined
           (Samples.with_subtitles "B") (mkStream "B-video" Video) None
           Samples.listener_failure);
    reflexivity.
Defined.

(** C2 as stated fails: the prior pointer was A, [play B] fails after
    the pointer was set to B, and the pointer ends null, not A. *)
Lemma play_failure_does_not_restore_pointer :
  current Samples.playing_A = Some "A" /\
  fst (MpvReceiver.play Samples.listener_throws "B" Undefined Samples.playing_A)
    = Throw Samples.listener_failure /\
  trace (snd (MpvReceiver.play Samples.listener_throws "B" Undefined Samples.playing_A))
    = [ Released (Some "A");
        Transport "play" [Str "http://unicast/B/B-video"; Str "http://unicast/B/B-subs"];
        Emitted "play" (Some "B");
        Released (Some "B") ] /\
  current (snd (MpvReceiver.play Samples.listener_throws "B" Undefined Samples.playing_A))
    = None.
Proof. vm_compute. repeat split. Qed.

(** C3 on a sample: [play A] then [play B] with the player on. *)
Lemma play_displaces_previous_session_witness :
  exists evs c rB,
    MpvReceiver.play Samples.player_on "B" Undefined Samples.after_play_A = (c, rB) /\
    trace rB = trace Samples.idle ++ evs /\
    times (released "A") evs = 1 /\
    times transport_stop evs = 0 /\
    records rB !! "A" = None /\
    (forall reply,
        connection_call Samples.player_on (S (now Samples.after_play_A)) "play"
          (play_arguments Samples.player_on "B" (Samples.with_subtitles "B")
             (mkStream "B-video" Video)) = Return reply ->
        listeners Samples.player_on (S (S (now Samples.after_play_A))) "play" (Some "B")
          = Return tt ->
        current rB = Some "B").
Proof.
  apply (play_displaces_previous_session Samples.player_on Samples.idle "A" "B"
           Undefined Undefined Samples.status_of_A Samples.after_play_A
           (Samples.with_subtitles "B") (mkStream "B-video" Video)).
  - discriminate.
  - vm_compute. reflexivity.
  - vm_compute. reflexivity.
  - reflexivity.
Defined.

(** C3 as stated fails: no stop command reaches the player between
    [play A] and [play B]; A is released from the registry without it. *)
Lemma play_issues_no_transport_stop :
  returned (fst (MpvReceiver.play Samples.player_on "A" Undefined Samples.idle)) = true /\
  returned (fst (MpvReceiver.play Samples.player_on "B" Undefined Samples.after_play_A)) = true /\
  trace (snd (MpvReceiver.play Samples.player_on "B" Undefined Samples.after_play_A))
    = [ Transport "play" [Str "http://unicast/A/A-video"; Str "http://unicast/A/A-subs"];
        Emitted "play" (Some "A");
        Transport "status" [];
        HistoryLookup (Some "A");
        Released (Some "A");
        Transport "play" [Str "http://unicast/B/B-video"; Str "http://unicast/B/B-subs"];
        Emitted "play" (Some "B");
        Transport "status" [];
        HistoryLookup (Some "B") ] /\
  times transport_stop
    (trace (snd (MpvReceiver.play Samples.player_on "B" Undefined Samples.after_play_A))) = 0.
Proof. vm_compute. repeat split. Qed.

(** C4 on a sample: X has an audio stream only. *)
Lemma play_without_video_releases_session_witness :
  exists r',
    MpvReceiver.play Samples.player_on "X" Undefined Samples.playing_X
      = (Throw MpvReceiver.no_video_error, r') /\
    trace r' = trace Samples.playing_X ++ [Released (Some "X")] /\
    times transport_call (drop (length (trace Samples.playing_X)) (trace r')) = 0 /\
    records r' = delete "X" (records Samples.playing_X) /\
    current r' = (if MpvReceiver.same_session (current Samples.playing_X) (Some "X")
                  then None else current Samples.playing_X).
Proof.
  apply (play_without_video_releases_session Samples.player_on Samples.playing_X "X"
           Undefined (Samples.audio_only "X"));
    reflexivity.
Defined.

(** C4 as stated fails: the failed [play X] removes X from the registry
    and, X being current, clears the pointer. *)
Lemma play_without_video_touches_registry :
  records Samples.playing_X !! "X" = Some (Samples.audio_only "X") /\
  current Samples.playing_X = Some "X" /\
  fst (MpvReceiver.play Samples.player_on "X" Undefined Samples.playing_X)
    = Throw MpvReceiver.no_video_error /\
  records (snd (MpvReceiver.play Samples.player_on "X" Undefined Samples.playing_X)) !! "X"
    = None /\
  current (snd (MpvReceiver.play Samples.player_on "X" Undefined Samples.playing_X)) = None.
Proof. vm_compute. repeat split. Qed.

(** C7 on a sample: [stop] while A is current. *)
Lemma stop_releases_and_reports_stopped_witness :
  (forall id, current Samples.playing_A = Some id -> records Samples.after_stop !! id = None) /\
  current Samples.after_stop = None /\
  trace Samples.after_stop
    = trace Samples.playing_A
        ++ [ Transport "stop" []; Released (current Samples.playing_A);
             Emitted "stop" (current Samples.playing_A); Transport "status" [] ] /\
  session (media (MpvReceiver.stoppedStatus 4)) = None /\
  state (MpvReceiver.stoppedStatus 4) = Stopped /\
  (forall r2 s2 r2',
      current r2 = None -> MpvReceiver.status Samples.player_idle r2 = (Return s2, r2') ->
      session (media s2) = None /\ state s2 = Stopped).
Proof.
  apply (stop_releases_and_reports_stopped Samples.player_idle Samples.playing_A
           (MpvReceiver.stoppedStatus 4) Samples.after_stop).
  vm_compute. reflexivity.
Defined.

(** C10 on three samples: not connected; connected with a working
    [open]; connected with a failing [open]. *)
Lemma connect_opens_only_when_connected_witness :
  MpvReceiver.connect Samples.player_idle Samples.idle = (Return true, Samples.idle) /\
  MpvReceiver.connect Samples.player_connected Samples.idle
    = (Return true, record_event (Transport "open" []) Samples.idle) /\
  MpvReceiver.connect Samples.player_stale Samples.idle
    = (Throw Samples.boom, record_event (Transport "open" []) Samples.idle).
Proof.
  split; [|split].
  - apply (proj1 (connect_opens_only_when_connected Samples.player_idle Samples.idle)).
    reflexivity.
  - apply (proj1 (proj2 (connect_opens_only_when_connected Samples.player_connected
                           Samples.idle)) eq_refl None).
    reflexivity.
  - apply (proj2 (proj2 (connect_opens_only_when_connected Samples.player_stale
                           Samples.idle)) eq_refl Samples.boom).
    reflexivity.
Defined.

(** C10 as stated fails: the connection reports connected, its [open]
    raises, and [connect] raises instead of returning true. *)
Lemma connect_raises_when_open_raises :
  connection_connected Samples.player_stale (now Samples.idle) = true /\
  MpvReceiver.connect Samples.player_stale Samples.idle
    = (Throw Samples.boom, record_event (Transport "open" []) Samples.idle).
Proof. split; reflexivity. Qed.

(** ** Dynamic dispatch *)

Section DispatchProperties.

Import MediaSessionsManager MpvReceiver.

Context (w : World) (rt : Runtime).

Lemma nesting_Arr args : exists n, nesting (Arr args) = S n.
Proof. destruct args as [|a [|b rest]]; simpl; eauto. Qed.

Lemma nth_characters_nesting s :
  nesting (nth 1 (characters s) Undefined) <= String.length s.
Proof.
  destruct s as [|c1 [|c2 rest]]; simpl; lia.
Qed.

(** The depth [callCommand] starts from is enough: a deeper start gives
    the same completion. *)
Lemma callCommand_depth_suffices depth :
  forall commandName args r,
    nesting args <= depth ->
    callCommand_at w rt depth commandName args r
      = callCommand_at w rt (S depth) commandName args r.
Proof.
  induction depth as [|depth IH]; intros commandName args r Hdepth.
  - destruct args; simpl in Hdepth; try lia;
      cbn [callCommand_at spread]; destruct (has_property rt commandName); try reflexivity.
    destruct items as [|a [|b rest]]; simpl in Hdepth; lia.
  - cbn [callCommand_at].
    destruct (has_property rt commandName); [|reflexivity].
    destruct (spread args) as [items|] eqn:Hspread; [|reflexivity].
    destruct (assoc commandName own_members) as [[m| |]|]; try reflexivity.
    destruct m; try reflexivity.
    cbn [invoke]. apply IH.
    destruct args; simpl in Hspread; try discriminate.
    + injection Hspread as <-. simpl in Hdepth.
      pose proof (nth_characters_nesting s). lia.
    + injection Hspread as <-.
      destruct items0 as [|a [|b rest]]; simpl in *; lia.
Qed.

Lemma callCommand_at_method depth name m args self :
  assoc name own_members = Some (OwnMethod m) ->
  m <> MCallCommand ->
  callCommand_at w rt depth name (Arr args) = invoke w rt self m args.
Proof.
  intros Hm Hne.
  destruct depth; cbn [callCommand_at spread]; unfold has_property; rewrite Hm;
    destruct m; try reflexivity; congruence.
Qed.

Lemma callCommand_method name m args :
  assoc name own_members = Some (OwnMethod m) ->
  m <> MCallCommand ->
  callCommand w rt name args = invoke w rt (fun _ _ => throw not_iterable) m args.
Proof. intros Hm Hne. unfold callCommand. apply callCommand_at_method; assumption. Qed.


(** Every operation of the contract is a method of the class. *)
Lemma contract_operations_are_methods name :
  recognized_operation name = true ->
  exists m, assoc name own_members = Some (OwnMethod m) /\ m <> MCallCommand.
Proof.
  unfold recognized_operation, contract_operations. cbn [existsb].
  rewrite !orb_true_iff.
  intros H; repeat (destruct H as [H|H]); try discriminate;
    apply String.eqb_eq in H; subst name; eexists; (split; [reflexivity | discriminate]).
Qed.

(** "constructor" is a property of the receiver too: the class's
    constructor, which cannot be called as a function. *)
Lemma callCommand_on_constructor args r :
  has_property rt "constructor" = true /\
  callCommand w rt "constructor" args r = (Throw not_without_new, r).
Proof.
  assert (Hm : assoc "constructor" own_members = Some OwnConstructor) by reflexivity.
  split; [unfold has_property; rewrite Hm; reflexivity|].
  unfold callCommand. destruct (nesting_Arr args) as [n ->].
  cbn [callCommand_at spread]. unfold has_property. rewrite Hm. reflexivity.
Qed.

End DispatchProperties.



(** ** The Kodi transport client *)

Section TransportProperties.

Import KodiConnection.

Context (d : Device).

Lemma ensure_open_connected fuel k :
  connected k = true -> ensure_open d fuel k = Some (None, k).
Proof. intros H. destruct fuel; simpl; rewrite H; reflexivity. Qed.

Lemma useFallback_not_connectivity err k :
  connectivity err = false -> useFallback err k = (false, k).
Proof.
  destruct err as [e|t]; simpl; [|reflexivity]. intros ->. reflexivity.
Qed.

(** The first connectivity failure toggles the address. *)
Lemma useFallback_first_failure err k fb :
  connectivity err = true ->
  failedAttemptsAtConnecting k = 0%Z ->
  fallback k = Some fb ->
  useFallback err k =
    (true, set_usingFallback (negb (usingFallback k)) (set_failedAttempts 1 k)).
Proof.
  intros Hc Hf Hfb. destruct err as [e|t]; simpl in *; [|discriminate].
  rewrite Hc, Hf, Hfb. reflexivity.
Qed.

(** The second one in a row does not. *)
Lemma useFallback_second_failure err k :
  connectivity err = true ->
  failedAttemptsAtConnecting k = 1%Z ->
  useFallback err k = (false, set_failedAttempts 2 k).
Proof.
  intros Hc Hf. destruct err as [e|t]; simpl in *; [|discriminate].
  rewrite Hc, Hf. reflexivity.
Qed.

(** One step of [call] on an open connection. *)
Lemma call_connected fuel k command args :
  connected k = true ->
  call d (S fuel) k command args =
    match request_outcome d (length (io k)) (target k) command args with
    | Resolved result =>
        Some (Resolved result,
              set_failedAttempts 0 (log_io (Requested (target k) command args) k))
    | Rejected err =>
        match useFallback err (log_io (Requested (target k) command args) k) with
        | (true, k) => call d fuel (close k) command args
        | (false, k) =>
            if not_ready err then call d fuel (close k) command args
            else Some (Rejected (wrapped (set_failedAttempts 0 k) command err),
                       set_failedAttempts 0 k)
        end
    end.
Proof.
  intros Hconn. cbn [call]. rewrite (ensure_open_connected _ _ Hconn).
  unfold request. fold (target k).
  destruct (request_outcome d (length (io k)) (target k) command args); reflexivity.
Qed.

Lemma open_succeeds k :
  open_outcome d (length (io k)) (address_in_use k) = None ->
  exists k1,
    open d k = (None, k1) /\ connected k1 = true /\ target k1 = address_in_use k /\
    io k1 = io k ++ [Opened (address_in_use k)] /\
    usingFallback k1 = usingFallback k /\ fallback k1 = fallback k /\
    failedAttemptsAtConnecting k1 = failedAttemptsAtConnecting k.
Proof.
  intros H. unfold open. fold (address_in_use k). cbn [log_io io]. rewrite H.
  eexists. split; [reflexivity|]. repeat split.
Qed.

(** [call] on a closed connection whose [open] succeeds continues as
    [call] on the opened connection. *)
Lemma call_disconnected fuel k k1 command args :
  connected k = false ->
  open d k = (None, k1) ->
  connected k1 = true ->
  call d (S (S fuel)) k command args =
    call d (S (S fuel)) (set_failedAttempts 0 k1) command args.
Proof.
  intros Hconn Hopen Hc1.
  assert (Hc : connected (set_failedAttempts 0 k1) = true) by exact Hc1.
  assert (He : ensure_open d (S fuel) k = Some (None, set_failedAttempts 0 k1)).
  { cbn [ensure_open]. rewrite Hconn, Hopen. apply ensure_open_connected, Hc. }
  change (call d (S (S fuel)) k command args) with
    (match ensure_open d (S fuel) k with
     | None => None
     | Some (Some err, k) => Some (Rejected err, k)
     | Some (None, k) =>
         match request d k command args with
         | (Resolved result, k) => Some (Resolved result, set_failedAttempts 0 k)
         | (Rejected err, k) =>
             match useFallback err k with
             | (true, k) => call d (S fuel) (close k) command args
             | (false, k) =>
                 if not_ready err then call d (S fuel) (close k) command args
                 else
                   let k := set_failedAttempts 0 k in
                   Some (Rejected (wrapped k command err), k)
             end
         end
     end).
  rewrite He. cbn [call]. rewrite (ensure_open_connected (S fuel) _ Hc). reflexivity.
Qed.

(** *** Fallback: what holds *)

(** The two lemmas on a failing [open] describe the [catch] of the loop
    in [call]; they need an [open] that raises, which the present body
    of [open] does not do. *)

(** Both addresses fail while the connection is being opened: the
    second error is raised, with the counter back at 0. *)
Lemma fallback_exhausted_while_opening k fb command args err1 err2 fuel :
  connected k = false ->
  usingFallback k = false ->
  failedAttemptsAtConnecting k = 0%Z ->
  fallback k = Some fb ->
  open_outcome d (length (io k)) (Some (address k)) = Some err1 ->
  connectivity err1 = true ->
  open_outcome d (S (length (io k))) (Some fb) = Some err2 ->
  connectivity err2 = true ->
  exists k',
    call d (S (S (S fuel))) k command args = Some (Rejected err2, k') /\
    usingFallback k' = true /\
    failedAttemptsAtConnecting k' = 0%Z /\
    io k' = io k ++ [Opened (Some (address k)); Opened (Some fb)].
Proof.
  intros Hc Hu Hf Hfb Hopen1 Herr1 Hopen2 Herr2.
  cbn [call ensure_open]. rewrite Hc.
  unfold open at 1. rewrite Hu. cbn [log_io io]. rewrite Hopen1.
  rewrite (useFallback_first_failure err1 _ fb) by assumption.
  cbn [connected close client].
  unfold open at 1.
  cbn [usingFallback set_usingFallback set_failedAttempts close log_io io fallback negb].
  rewrite Hu, Hfb. cbn [negb]. rewrite length_app. cbn [length]. rewrite Nat.add_1_r, Hopen2.
  rewrite useFallback_second_failure by (assumption || reflexivity).
  eexists. split; [reflexivity|]. cbn. rewrite <- app_assoc. auto.
Qed.

(** X22.  The primary refuses a request, the fallback answers it: the call
    completes on the fallback with the counter at 0. *)
Lemma fallback_after_refused_request k fb command args err result fuel :
  connected k = true ->
  usingFallback k = false ->
  failedAttemptsAtConnecting k = 0%Z ->
  fallback k = Some fb ->
  request_outcome d (length (io k)) (target k) command args = Rejected err ->
  connectivity err = true ->
  open_outcome d (S (length (io k))) (Some fb) = None ->
  request_outcome d (S (S (length (io k)))) (Some fb) command args = Resolved result ->
  exists k',
    call d (S (S (S fuel))) k command args = Some (Resolved result, k') /\
    usingFallback k' = true /\
    failedAttemptsAtConnecting k' = 0%Z.
Proof.
  intros Hc Hu Hf Hfb Hreq Herr Hopen Hreq2.
  rewrite call_connected, Hreq by assumption.
  rewrite (useFallback_first_failure err _ fb) by assumption.
  set (k0 := close _).
  assert (Hlen : length (io k0) = S (length (io k))).
  { subst k0. cbn. rewrite length_app. simpl. lia. }
  assert (Haddr : address_in_use k0 = Some fb).
  { subst k0. unfold address_in_use. cbn. rewrite Hu. exact Hfb. }
  destruct (open_succeeds k0) as (k1 & Hk1 & Hc1 & Ht1 & Hio1 & Hu1 & _).
  { rewrite Hlen, Haddr. exact Hopen. }
  rewrite (call_disconnected _ _ k1) by (reflexivity || assumption).
  rewrite call_connected by exact Hc1.
  change (io (set_failedAttempts 0 k1)) with (io k1).
  change (target (set_failedAttempts 0 k1)) with (target k1).
  rewrite Hio1, Ht1, length_app, Hlen, Haddr. cbn [length]. rewrite Nat.add_1_r, Hreq2.
  eexists. split; [reflexivity|]. split; [|reflexivity].
  cbn. rewrite Hu1. subst k0. cbn. rewrite Hu. reflexivity.
Qed.

(** The primary cannot be opened, the fallback can and answers: the
    call completes on the fallback with the counter at 0. *)
Lemma fallback_after_failed_open k fb command args err result fuel :
  connected k = false ->
  usingFallback k = false ->
  failedAttemptsAtConnecting k = 0%Z ->
  fallback k = Some fb ->
  open_outcome d (length (io k)) (Some (address k)) = Some err ->
  connectivity err = true ->
  open_outcome d (S (length (io k))) (Some fb) = None ->
  request_outcome d (S (S (length (io k)))) (Some fb) command args = Resolved result ->
  exists k',
    call d (S (S (S fuel))) k command args = Some (Resolved result, k') /\
    usingFallback k' = true /\
    failedAttemptsAtConnecting k' = 0%Z.
Proof.
  intros Hc Hu Hf Hfb Hopen1 Herr Hopen2 Hreq.
  cbn [call ensure_open]. rewrite Hc.
  unfold open at 1. rewrite Hu. cbn [log_io io]. rewrite Hopen1.
  rewrite (useFallback_first_failure err _ fb) by assumption.
  cbn [connected close client].
  unfold open at 1.
  cbn [usingFallback set_usingFallback set_failedAttempts close log_io io fallback negb].
  rewrite Hu, Hfb. cbn [negb]. rewrite length_app. cbn [length]. rewrite Nat.add_1_r, Hopen2.
  rewrite ensure_open_connected by reflexivity.
  unfold request. cbn [client set_client set_failedAttempts hostname io log_io].
  cbn [close set_usingFallback set_failedAttempts log_io io].
  rewrite !length_app. cbn [length]. rewrite !Nat.add_1_r, Hreq.
  eexists. split; [reflexivity|]. split; reflexivity.
Qed.

(** *** Fallback: what does not *)

(** C5 on the code.  With a fallback address configured, an [open] that
    always succeeds and a device that refuses every request on both
    addresses, [call] never completes: every successful [open] puts the
    failed-attempt counter back to 0, so each refused request counts as
    a first failure and toggles the address again.  No error is ever
    raised to the caller. *)
Theorem refused_requests_never_raise command args :
  (forall n h, open_outcome d n h = None) ->
  (forall n h c a, exists err,
      request_outcome d n h c a = Rejected err /\ connectivity err = true) ->
  forall fuel k fb,
    fallback k = Some fb ->
    (connected k = true -> failedAttemptsAtConnecting k = 0%Z) ->
    call d fuel k command args = None.
Proof.
  intros Hopen Hreq. induction fuel as [|fuel IH]; intros k fb Hfb Hcount; [reflexivity|].
  assert (Hconnected : forall k, fallback k = Some fb -> connected k = true ->
            failedAttemptsAtConnecting k = 0%Z -> call d (S fuel) k command args = None).
  { intros k0 Hfb0 Hc0 Hf0. rewrite call_connected by assumption.
    destruct (Hreq (length (io k0)) (target k0) command args) as (err & -> & Herr).
    rewrite (useFallback_first_failure err _ fb) by assumption.
    apply (IH _ fb); [assumption | discriminate]. }
  destruct (connected k) eqn:Hc; [apply Hconnected; auto|].
  destruct fuel as [|fuel]; [cbn [call ensure_open]; rewrite Hc; reflexivity|].
  destruct (open_succeeds k (Hopen _ _)) as (k1 & Hk1 & Hc1 & _ & _ & _ & Hfb1 & _).
  rewrite (call_disconnected _ _ k1) by assumption.
  apply Hconnected; [cbn; congruence | exact Hc1 | reflexivity].
Qed.

(** *** Not ready *)

(** On a closed connection: [n] requests in a row find the socket not
    ready, the next one is answered.  Every one of them is made after
    the client was opened again, and the answer is the result. *)
Lemma not_ready_rounds command args result n :
  forall k fuel,
    connected k = false ->
    (forall i, i <= n ->
       open_outcome d (length (io k) + 2 * i) (address_in_use k) = None) ->
    (forall i, i < n ->
       exists e,
         request_outcome d (length (io k) + 2 * i + 1) (address_in_use k) command args
           = Rejected e /\
         not_ready e = true /\ connectivity e = false) ->
    request_outcome d (length (io k) + 2 * n + 1) (address_in_use k) command args
      = Resolved result ->
    exists k'',
      call d (S (S n) + fuel) k command args = Some (Resolved result, k'') /\
      io k'' = io k ++ reopened (address_in_use k) command args (S n) /\
      failedAttemptsAtConnecting k'' = 0%Z.
Proof.
  induction n as [|n IH]; intros k fuel Hc Hopen Hrej Hres.
  - destruct (open_succeeds k) as (k1 & Hk1 & Hc1 & Ht1 & Hio1 & _).
    { specialize (Hopen 0 (Nat.le_refl _)). rewrite Nat.add_0_r in Hopen. exact Hopen. }
    cbn [Nat.add]. rewrite (call_disconnected _ _ k1) by assumption.
    rewrite call_connected by exact Hc1.
    change (io (set_failedAttempts 0 k1)) with (io k1).
    change (target (set_failedAttempts 0 k1)) with (target k1).
    rewrite Hio1, Ht1, length_app. cbn [length].
    replace (length (io k) + 1) with (length (io k) + 2 * 0 + 1) by lia. rewrite Hres.
    eexists. split; [reflexivity|]. split; [|reflexivity].
    cbn [io set_failedAttempts log_io reopened]. rewrite Hio1, <- app_assoc. reflexivity.
  - destruct (open_succeeds k) as (k1 & Hk1 & Hc1 & Ht1 & Hio1 & Hu1 & Hfb1 & _).
    { specialize (Hopen 0 (Nat.le_0_l _)). rewrite Nat.add_0_r in Hopen. exact Hopen. }
    destruct (Hrej 0 (Nat.lt_0_succ _)) as (e & He & Hnr & Hnc).
    cbn [Nat.add]. rewrite (call_disconnected _ _ k1) by assumption.
    rewrite call_connected by exact Hc1.
    change (io (set_failedAttempts 0 k1)) with (io k1).
    change (target (set_failedAttempts 0 k1)) with (target k1).
    rewrite Hio1, Ht1, length_app. cbn [length].
    replace (length (io k) + 1) with (length (io k) + 2 * 0 + 1) by lia. rewrite He.
    rewrite useFallback_not_connectivity by exact Hnc. rewrite Hnr.
    set (k2 := close (log_io (Requested (address_in_use k) command args)
                        (set_failedAttempts 0 k1))).
    assert (Hio2 : io k2 = io k ++ [Opened (address_in_use k);
                                    Requested (address_in_use k) command args]).
    { subst k2. cbn [close io log_io set_failedAttempts]. rewrite Hio1, <- app_assoc.
      reflexivity. }
    assert (Haddr : address_in_use k2 = address_in_use k).
    { subst k2. unfold address_in_use.
      cbn [close usingFallback fallback address log_io set_failedAttempts].
      rewrite Hu1, Hfb1. destruct (usingFallback k); [reflexivity|].
      f_equal. apply (f_equal (fun p => address (snd p))) in Hk1. unfold open in Hk1.
      destruct (open_outcome d _ _); simpl in Hk1; congruence. }
    assert (Hlen : length (io k2) = length (io k) + 2).
    { rewrite Hio2, length_app. reflexivity. }
    destruct (IH k2 fuel) as (k'' & Hcall & Hio'' & Hf'').
    + reflexivity.
    + intros i Hi. rewrite Hlen, Haddr.
      replace (length (io k) + 2 + 2 * i) with (length (io k) + 2 * S i) by lia.
      apply Hopen. lia.
    + intros i Hi. rewrite Hlen, Haddr.
      replace (length (io k) + 2 + 2 * i + 1) with (length (io k) + 2 * S i + 1) by lia.
      apply Hrej. lia.
    + rewrite Hlen, Haddr.
      replace (length (io k) + 2 + 2 * n + 1) with (length (io k) + 2 * S n + 1) by lia.
      exact Hres.
    + exists k''. split; [exact Hcall|]. split; [|exact Hf''].
      rewrite Hio'', Hio2, Haddr, <- app_assoc. reflexivity.
Qed.

(** A device on which every request finds the socket not ready keeps
    [call] retrying: no fuel is enough for it to complete. *)
Lemma not_ready_forever command args :
  (forall m h, open_outcome d m h = None) ->
  (forall m h, exists e,
      request_outcome d m h command args = Rejected e /\ not_ready e = true) ->
  forall fuel k, call d fuel k command args = None.
Proof.
  intros Hopen Hreq. induction fuel as [|fuel IH]; intros k; [reflexivity|].
  assert (Hconnected : forall k0, connected k0 = true ->
            call d (S fuel) k0 command args = None).
  { intros k0 Hc0. rewrite call_connected by assumption.
    destruct (Hreq (length (io k0)) (target k0)) as (e & -> & Hnr).
    destruct (useFallback e _) as [[] k2]; [apply IH|]. rewrite Hnr. apply IH. }
  destruct (connected k) eqn:Hc; [apply Hconnected; exact Hc|].
  destruct fuel as [|fuel]; [cbn [call ensure_open]; rewrite Hc; reflexivity|].
  destruct (open_succeeds k (Hopen _ _)) as (k1 & Hk1 & Hc1 & _).
  rewrite (call_disconnected _ _ k1) by assumption.
  apply Hconnected. exact Hc1.
Qed.

(** C6, as amended.  On an open connection, a request that fails with
    an error whose message contains "socket not ready" is not surfaced:
    [call] closes the connection and is the very same call, with the
    same command and arguments, made again on the closed connection.
    When the reopened connection answers, that answer is the result.
    The retry is not limited to one: when the next [n] requests find the
    socket not ready as well, each is retried in turn, and the answer to
    the request after them is the result, [n + 2] requests having been
    made; and on a device that stays not ready [call] never completes,
    so that no error is ever raised. *)
Theorem not_ready_is_retried k command args err fuel :
  connected k = true ->
  request_outcome d (length (io k)) (target k) command args = Rejected err ->
  not_ready err = true ->
  let k' := snd (useFallback err (log_io (Requested (target k) command args) k)) in
  call d (S fuel) k command args = call d fuel (close k') command args /\
  connected (close k') = false /\
  io (close k') = io k ++ [Requested (target k) command args] /\
  (connectivity err = false ->
   forall result,
     open_outcome d (S (length (io k))) (address_in_use k) = None ->
     request_outcome d (S (S (length (io k)))) (address_in_use k) command args
       = Resolved result ->
     exists k'',
       call d (S (S (S fuel))) k command args = Some (Resolved result, k'') /\
       io k'' = io k ++ [ Requested (target k) command args;
                          Opened (address_in_use k);
                          Requested (address_in_use k) command args ] /\
       failedAttemptsAtConnecting k'' = 0%Z) /\
  (connectivity err = false ->
   forall n result,
     (forall i, i <= n ->
        open_outcome d (S (length (io k)) + 2 * i) (address_in_use k) = None) ->
     (forall i, i < n ->
        exists e,
          request_outcome d (S (S (length (io k))) + 2 * i) (address_in_use k) command args
            = Rejected e /\
          not_ready e = true /\ connectivity e = false) ->
     request_outcome d (S (S (length (io k))) + 2 * n) (address_in_use k) command args
       = Resolved result ->
     exists k'',
       call d (S (S (S n)) + fuel) k command args = Some (Resolved result, k'') /\
       io k'' = io k ++ Requested (target k) command args
                        :: reopened (address_in_use k) command args (S n) /\
       failedAttemptsAtConnecting k'' = 0%Z) /\
  ((forall m h, open_outcome d m h = None) ->
   (forall m h, exists e,
       request_outcome d m h command args = Rejected e /\ not_ready e = true) ->
   forall fuel', call d fuel' k command args = None).
Proof.
  intros Hconn Hreq Hready k'.
  assert (Hcall : forall fuel,
             call d (S fuel) k command args = call d fuel (close k') command args).
  { intros f. rewrite (call_connected _ _ _ _ Hconn), Hreq.
    subst k'. destruct (useFallback err _) as [[] k2]; cbn [snd]; [reflexivity|].
    rewrite Hready. reflexivity. }
  assert (Hio : io (close k') = io k ++ [Requested (target k) command args]).
  { subst k'. destruct err as [e|t]; simpl; [|reflexivity].
    destruct (has_code "ECONNREFUSED" e || has_code "ETIMEDOUT" e); simpl; [|reflexivity].
    destruct (_ || _); reflexivity. }
  assert (Hlen : length (io (close k')) = S (length (io k))).
  { rewrite Hio, length_app. simpl. lia. }
  split; [apply Hcall|]. split; [reflexivity|]. split; [exact Hio|].
  split; [|split].
  - intros Hnc result Hopen Hreq2.
    assert (Hk' : k' = log_io (Requested (target k) command args) k).
    { subst k'. rewrite useFallback_not_connectivity by assumption. reflexivity. }
    rewrite Hcall.
    assert (Haddr : address_in_use (close k') = address_in_use k)
      by (rewrite Hk'; reflexivity).
    destruct (open_succeeds (close k')) as (k1 & Hk1 & Hc1 & Ht1 & Hio1 & _).
    { rewrite Hlen, Haddr; exact Hopen. }
    rewrite (call_disconnected _ _ k1) by (reflexivity || assumption).
    rewrite call_connected by exact Hc1.
    change (io (set_failedAttempts 0 k1)) with (io k1).
    change (target (set_failedAttempts 0 k1)) with (target k1).
    rewrite Hio1, Ht1, length_app, Hlen, Haddr. cbn [length]. rewrite Nat.add_1_r, Hreq2.
    eexists. split; [reflexivity|]. split; [|reflexivity].
    cbn [io set_failedAttempts log_io]. rewrite Hio1, Hio, ?Haddr, <- !app_assoc. reflexivity.
  - intros Hnc n result Hopen Hrej Hres.
    assert (Hk' : k' = log_io (Requested (target k) command args) k).
    { subst k'. rewrite useFallback_not_connectivity by assumption. reflexivity. }
    assert (Haddr : address_in_use (close k') = address_in_use k)
      by (rewrite Hk'; reflexivity).
    destruct (not_ready_rounds command args result n (close k') fuel)
      as (k'' & Hk'' & Hio'' & Hf'').
    + reflexivity.
    + intros i Hi. rewrite Hlen, Haddr. apply Hopen, Hi.
    + intros i Hi. rewrite Hlen, Haddr.
      replace (S (length (io k)) + 2 * i + 1) with (S (S (length (io k))) + 2 * i) by lia.
      apply Hrej, Hi.
    + rewrite Hlen, Haddr.
      replace (S (length (io k)) + 2 * n + 1) with (S (S (length (io k))) + 2 * n) by lia.
      exact Hres.
    + exists k''. split; [|split; [|exact Hf'']].
      * change (S (S (S n)) + fuel) with (S (S (S n) + fuel)). rewrite Hcall. exact Hk''.
      * rewrite Hio'', Hio, Haddr, <- app_assoc. reflexivity.
  - intros Hopen Hnever fuel'. apply not_ready_forever; assumption.
Qed.

End TransportProperties.

(** *** The transport claims on the sample configurations *)

(** C5 on a sample: a device that refuses every request leaves [call]
    running, whatever the fuel; here with fuel 100. *)
Lemma refused_requests_never_raise_witness :
  KodiConnection.call Samples.always_refuses 100 Samples.kodi
    "Player.GetActivePlayers" (Obj []) = None.
Proof.
  apply (refused_requests_never_raise Samples.always_refuses
           "Player.GetActivePlayers" (Obj [])) with (fb := "10.0.0.3").
  - intros; reflexivity.
  - intros; eexists; split; reflexivity.
  - reflexivity.
  - intros; reflexivity.
Defined.

(** The primary refuses, then the fallback refuses: no error is raised,
    the client goes back to the primary, whose answer to the third
    request is the result. *)
Lemma refused_requests_toggle_back :
  KodiConnection.call Samples.refuses_twice 6 Samples.kodi
    "Player.GetActivePlayers" (Obj []) =
    Some (KodiConnection.Resolved (Str "OK"),
          KodiConnection.mkConnection "10.0.0.2" 8080 None None (Some "10.0.0.3") false 0
            (Some (KodiConnection.mkClient (Some "10.0.0.2") 8080 "/jsonrpc" None)) None
            [ KodiConnection.Opened (Some "10.0.0.2");
              KodiConnection.Requested (Some "10.0.0.2") "Player.GetActivePlayers" (Obj []);
              KodiConnection.Opened (Some "10.0.0.3");
              KodiConnection.Requested (Some "10.0.0.3") "Player.GetActivePlayers" (Obj []);
              KodiConnection.Opened (Some "10.0.0.2");
              KodiConnection.Requested (Some "10.0.0.2") "Player.GetActivePlayers" (Obj []) ]).
Proof. vm_compute. reflexivity. Qed.

(** C6 on samples: the first request finds the socket not ready, the
    connection is reopened and the same request is answered; and the
    same with a second request that finds the socket not ready. *)
Lemma not_ready_is_retried_witness :
  (exists k'',
     KodiConnection.call Samples.not_ready_once 3 Samples.kodi_open
       "Player.GetActivePlayers" (Obj []) = Some (KodiConnection.Resolved (Str "OK"), k'') /\
     KodiConnection.io k''
       = KodiConnection.io Samples.kodi_open
           ++ [ KodiConnection.Requested (Some "10.0.0.2") "Player.GetActivePlayers" (Obj []);
                KodiConnection.Opened (Some "10.0.0.2");
                KodiConnection.Requested (Some "10.0.0.2") "Player.GetActivePlayers" (Obj []) ] /\
     KodiConnection.failedAttemptsAtConnecting k'' = 0%Z) /\
  (exists k'',
     KodiConnection.call Samples.not_ready_twice 4 Samples.kodi_open
       "Player.GetActivePlayers" (Obj []) = Some (KodiConnection.Resolved (Str "OK"), k'') /\
     KodiConnection.io k''
       = KodiConnection.io Samples.kodi_open
           ++ KodiConnection.Requested (Some "10.0.0.2") "Player.GetActivePlayers" (Obj [])
              :: reopened (Some "10.0.0.2") "Player.GetActivePlayers" (Obj []) 2 /\
     KodiConnection.failedAttemptsAtConnecting k'' = 0%Z).
Proof.
  split.
  - destruct (not_ready_is_retried Samples.not_ready_once Samples.kodi_open
                "Player.GetActivePlayers" (Obj []) Samples.socket_not_ready 0
                eq_refl eq_refl eq_refl) as (_ & _ & _ & H & _).
    apply (H eq_refl (Str "OK")); reflexivity.
  - destruct (not_ready_is_retried Samples.not_ready_twice Samples.kodi_open
                "Player.GetActivePlayers" (Obj []) Samples.socket_not_ready 0
                eq_refl eq_refl eq_refl) as (_ & _ & _ & _ & H & _).
    apply (H eq_refl 1 (Str "OK")).
    + intros i Hi. reflexivity.
    + intros [|i] Hi; [|lia]. exists Samples.socket_not_ready. repeat split.
    + reflexivity.
Defined.

(** C6 as stated fails: the call is not retried once only.  On a device
    whose socket is not ready for the first two requests, the second
    not-ready error is not surfaced either: the connection is reopened
    a second time and a third request is made, whose answer is the
    result. *)
Lemma not_ready_twice_makes_three_requests :
  KodiConnection.call Samples.not_ready_twice 4 Samples.kodi_open
    "Player.GetActivePlayers" (Obj []) =
    Some (KodiConnection.Resolved (Str "OK"),
          KodiConnection.mkConnection "10.0.0.2" 8080 None None (Some "10.0.0.3") false 0
            (Some (KodiConnection.mkClient (Some "10.0.0.2") 8080 "/jsonrpc" None)) None
            [ KodiConnection.Requested (Some "10.0.0.2") "Player.GetActivePlayers" (Obj []);
              KodiConnection.Opened (Some "10.0.0.2");
              KodiConnection.Requested (Some "10.0.0.2") "Player.GetActivePlayers" (Obj []);
              KodiConnection.Opened (Some "10.0.0.2");
              KodiConnection.Requested (Some "10.0.0.2") "Player.GetActivePlayers" (Obj []) ]).
Proof. vm_compute. reflexivity. Qed.

(** ** KodiApi.query *)

Section QueryProperties.

Import KodiApi.

Context (got : string -> JsVal -> Completion Response)
        (JSON_parse : string -> option Body)
        (port_text : Z -> string).

(** C8, as amended.  When a kind is given and [options.returnResponse]
    is not set: a reply carrying an error object raises an error with
    the device's error message; a reply without one, whose result
    carries limits with [start >= total], yields the empty collection. *)
Theorem query_normalizes_reply api q kind options response reply :
  truthy_string kind = true ->
  returnResponse options = false ->
  got (endpoint port_text api) (request_body q) = Return response ->
  JSON_parse (body response) = Some reply ->
  (forall e,
      error reply = Some e ->
      query got JSON_parse port_text api q kind options
        = Throw (mkError PlainError (message e))) /\
  (forall r l,
      error reply = None -> result reply = Some r -> limits r = Some l ->
      Qle (total l) (start l) ->
      query got JSON_parse port_text api q kind options = Return (Value_ (Arr []))).
Proof.
  intros Hkind Hret Hgot Hparse. unfold query. rewrite Hgot, Hkind, Hret, Hparse. simpl.
  split.
  - intros e ->. reflexivity.
  - intros r l -> -> -> Hle. apply Qle_bool_iff in Hle. rewrite Hle. reflexivity.
Qed.

(** Without a kind, or with [options.returnResponse], the response is
    handed back as it came, whatever its body says. *)
Lemma query_returns_response api q kind options response :
  negb (truthy_string kind) || returnResponse options = true ->
  got (endpoint port_text api) (request_body q) = Return response ->
  query got JSON_parse port_text api q kind options = Return (WholeResponse response).
Proof. intros H Hgot. unfold query. rewrite Hgot, H. reflexivity. Qed.

End QueryProperties.

(** C8 on samples: an error reply and an empty page, both queried with
    a kind. *)
Lemma query_normalizes_reply_witness :
  KodiApi.query (Samples.replies "error") Samples.parse Samples.port_text KodiApi.default_api
      (KodiApi.mkQuery "VideoLibrary.GetMovies" (Obj [])) (Some "movie") KodiApi.no_options
    = Throw (mkError PlainError "Invalid params.") /\
  KodiApi.query (Samples.replies "empty") Samples.parse Samples.port_text KodiApi.default_api
      (KodiApi.mkQuery "VideoLibrary.GetMovies" (Obj [])) (Some "movie") KodiApi.no_options
    = Return (KodiApi.Value_ (Arr [])).
Proof.
  split.
  - apply (proj1 (query_normalizes_reply (Samples.replies "error") Samples.parse
                    Samples.port_text KodiApi.default_api
                    (KodiApi.mkQuery "VideoLibrary.GetMovies" (Obj [])) (Some "movie")
                    KodiApi.no_options (KodiApi.mkResponse 200 "error") Samples.error_reply
                    eq_refl eq_refl eq_refl eq_refl) (KodiApi.mkReplyError "Invalid params.")).
    reflexivity.
  - apply (proj2 (query_normalizes_reply (Samples.replies "empty") Samples.parse
                    Samples.port_text KodiApi.default_api
                    (KodiApi.mkQuery "VideoLibrary.GetMovies" (Obj [])) (Some "movie")
                    KodiApi.no_options (KodiApi.mkResponse 200 "empty") Samples.empty_page
                    eq_refl eq_refl eq_refl eq_refl)
             (KodiApi.mkReplyResult (Some (KodiApi.mkLimits 0 0)) []) (KodiApi.mkLimits 0 0));
      try reflexivity.
    apply Qle_refl.
Defined.

(** C8 as stated fails: queried without a kind, as [sync] does, a reply
    carrying an error object raises nothing and a reply with
    [start >= total] is not turned into an empty collection; the
    response is returned whole. *)
Lemma query_without_kind_returns_response :
  Samples.parse "error" = Some Samples.error_reply /\
  KodiApi.sync (Samples.replies "error") Samples.parse Samples.port_text KodiApi.default_api
    = Return (KodiApi.WholeResponse (KodiApi.mkResponse 200 "error")) /\
  Samples.parse "empty" = Some Samples.empty_page /\
  KodiApi.query (Samples.replies "empty") Samples.parse Samples.port_text KodiApi.default_api
      (KodiApi.mkQuery "VideoLibrary.GetMovies" (Obj [])) None KodiApi.no_options
    = Return (KodiApi.WholeResponse (KodiApi.mkResponse 200 "empty")).
Proof. repeat split. Qed.

(** * Further properties *)

(** ** The receiver: what its commands leave alone *)

Lemma keeps_ret {A} (a : A) : keeps_sessions (ret a).
Proof. intros r. split; reflexivity. Qed.

Lemma keeps_bind {A B} (m : M A) (k : A -> M B) :
  keeps_sessions m -> (forall a, keeps_sessions (k a)) -> keeps_sessions (bind m k).
Proof.
  intros Hm Hk r. unfold bind. specialize (Hm r).
  destruct (m r) as [[a|e] r1]; simpl in *.
  - destruct Hm as [H3 H4]. destruct (Hk a r1) as [H1 H2]. split; congruence.
  - assumption.
Qed.

Section ReceiverFrame.

Import MediaSessionsManager MpvReceiver.

Context (w : World).

Lemma keeps_connection method args : keeps_sessions (connection w method args).
Proof. intros r. split; reflexivity. Qed.

Lemma keeps_emit name id : keeps_sessions (emit w name id).
Proof. intros r. split; reflexivity. Qed.

Lemma keeps_get_current : keeps_sessions get_current.
Proof. intros r. split; reflexivity. Qed.

Lemma keeps_status : keeps_sessions (status w).
Proof.
  intros r. destruct (status w r) as [c r'] eqn:H.
  destruct (status_frame w _ _ _ H) as (H1 & H2 & _). split; assumption.
Qed.

Lemma keeps_connect : keeps_sessions (connect w).
Proof.
  intros r. unfold connect, bind, connection_is_connected, connection, ret.
  destruct (connection_connected w (now r)); [|split; reflexivity].
  destruct (connection_call w (now r) "open" []); split; reflexivity.
Qed.

Lemma keeps_disconnect : keeps_sessions (disconnect w).
Proof.
  intros r. unfold disconnect, connected, bind, connection, ret.
  destruct (connection_call w (now r) "close" []); split; reflexivity.
Qed.

Lemma keeps_reconnect : keeps_sessions (reconnect w).
Proof.
  intros r. unfold reconnect, try_finally_return.
  destruct (keeps_connect (snd (disconnect w r))) as [H1 H2].
  destruct (keeps_disconnect r) as [H3 H4]. split; congruence.
Qed.

Ltac keeps :=
  repeat first [ apply keeps_status | apply keeps_connection | apply keeps_emit
               | apply keeps_get_current | apply keeps_ret
               | apply keeps_bind; [|intros ?] ].

(** X1.  Whatever the player, the listeners and the history table do,
    and whether the command returns or raises: pause, resume, seek,
    seekTo, mute, unmute, setVolume, changeSubtitlesSize, status, connect
    and reconnect leave the session registry and the current pointer
    exactly as they found them. *)
Theorem control_commands_keep_sessions r :
  (records (snd (pause w r)) = records r /\ current (snd (pause w r)) = current r) /\
  (records (snd (resume w r)) = records r /\ current (snd (resume w r)) = current r) /\
  (forall time,
      (records (snd (seek w time r)) = records r /\ current (snd (seek w time r)) = current r) /\
      (records (snd (seekTo w time r)) = records r /\
       current (snd (seekTo w time r)) = current r)) /\
  (records (snd (mute w r)) = records r /\ current (snd (mute w r)) = current r) /\
  (records (snd (unmute w r)) = records r /\ current (snd (unmute w r)) = current r) /\
  (forall level,
      records (snd (setVolume w level r)) = records r /\
      current (snd (setVolume w level r)) = current r) /\
  (forall size,
      records (snd (changeSubtitlesSize w size r)) = records r /\
      current (snd (changeSubtitlesSize w size r)) = current r) /\
  (records (snd (status w r)) = records r /\ current (snd (status w r)) = current r) /\
  (records (snd (connect w r)) = records r /\ current (snd (connect w r)) = current r) /\
  (records (snd (reconnect w r)) = records r /\ current (snd (reconnect w r)) = current r).
Proof.
  assert (Hpause : keeps_sessions (pause w)) by (unfold pause; keeps).
  assert (Hresume : keeps_sessions (resume w)) by (unfold resume; keeps).
  assert (Hseek : forall t, keeps_sessions (seek w t)) by (intros; unfold seek; keeps).
  assert (HseekTo : forall t, keeps_sessions (seekTo w t)) by (intros; unfold seekTo; keeps).
  assert (Hmute : keeps_sessions (mute w)) by (unfold mute; keeps).
  assert (Hunmute : keeps_sessions (unmute w)) by (unfold unmute; keeps).
  assert (Hvolume : forall l, keeps_sessions (setVolume w l)) by (intros; unfold setVolume; keeps).
  assert (Hsize : forall s, keeps_sessions (changeSubtitlesSize w s))
    by (intros; unfold changeSubtitlesSize; keeps).
  split; [apply Hpause|]. split; [apply Hresume|].
  split; [intros t; split; [apply Hseek | apply HseekTo]|].
  split; [apply Hmute|]. split; [apply Hunmute|].
  split; [intros l; apply Hvolume|]. split; [intros s; apply Hsize|].
  split; [apply keeps_status|]. split; [apply keeps_connect | apply keeps_reconnect].
Qed.

(** X2.  [reconnect] does not pass on what [disconnect] does: whether
    the transport's close returns or raises, if the connection then
    reports not connected, [reconnect] returns true, the close being the
    only call made. *)
Theorem reconnect_survives_disconnect_failure r :
  connection_connected w (S (now r)) = false ->
  reconnect w r = (Return true, record_event (Transport "close" []) r).
Proof.
  intros H. unfold reconnect, try_finally_return, disconnect, connected, bind, connection, ret.
  destruct (connection_call w (now r) "close" []) as [x|e]; simpl;
    unfold connect, bind, connection_is_connected, ret;
    rewrite now_record_event, H; reflexivity.
Qed.

(** X3.  A status that is returned is either the Stopped snapshot, or
    reports the record of the current session, which is then bound in
    the registry, as Playing at speed 1 or Paused at speed 0; Buffering
    is never reported. *)
Theorem status_reports_bound_session r s r' :
  status w r = (Return s, r') ->
  s = stoppedStatus (timestamp s) \/
  exists id entry,
    current r = Some id /\ records r !! id = Some entry /\
    record (media s) = Some (entry_record entry) /\
    (state s = Playing /\ speed (time (media s)) = 1%Q \/
     state s = Paused /\ speed (time (media s)) = 0%Q).
Proof.
  unfold status, bind, connection, new_Date, ret, get_current, get, history.
  destruct (connection_call w (now r) "status" []) as [[st|]|e]; simpl; [| | discriminate].
  - destruct (negb (truthy_string (st_path st))); simpl.
    + intros [= <- <-]. left; reflexivity.
    + destruct (current r) as [id|] eqn:Hc; simpl; [|discriminate].
      destruct (records r !! id) as [entry|] eqn:He; simpl; [|discriminate].
      destruct (history_get w _ (Some id)); simpl; [|discriminate].
      intros [= <- <-]. right. exists id, entry. simpl.
      destruct (st_pause st); repeat split; auto.
  - intros [= <- <-]. left; reflexivity.
Qed.

(** X4.  [play] on an id the registry does not know raises the lookup
    error before anything else happens: nothing is released, nothing is
    sent to the player, the pointer is untouched. *)
Theorem play_unknown_session_changes_nothing r id opts :
  records r !! id = None ->
  play w id opts r = (Throw (mkError SessionNotFoundError id), r).
Proof.
  intros H. unfold play, bind at 1. unfold get. rewrite H. reflexivity.
Qed.

(** X5.  A is current and [play B] is refused by the player: the error
    is re-raised, A and B are both gone from the registry, and the
    pointer still names A. *)
Theorem play_refused_leaves_stale_pointer r A B opts entry video e :
  current r = Some A ->
  A <> B ->
  records r !! B = Some entry ->
  List.find (is_type Video) (streams entry) = Some video ->
  connection_call w (S (now r)) "play" (play_arguments w B entry video) = Throw e ->
  exists r',
    play w B opts r = (Throw e, r') /\
    current r' = Some A /\
    records r' !! A = None /\
    records r' !! B = None /\
    trace r' = trace r ++ [ Released (Some A);
                            Transport "play" (play_arguments w B entry video);
                            Released (Some B) ].
Proof.
  intros Hcur Hne Hentry Hvideo Hcall.
  assert (Hd : displaced B r =
               mkReceiver (delete A (records r)) (Some A) (trace r ++ [Released (Some A)])).
  { destruct (displaced_shape B r) as [[_ [H|H]] | (c & Hc & _ & ->)]; congruence. }
  assert (Hnow : now (displaced B r) = S (now r)).
  { rewrite Hd. unfold now; simpl. rewrite length_app; simpl; lia. }
  destruct (play w B opts r) as [c r'] eqn:Hplay. exists r'.
  destruct (play_outcomes w _ _ _ _ _ _ _ Hentry Hvideo Hplay)
    as [(e' & Hcall' & -> & ->) | [(reply & e' & Hcall' & _) | (reply & Hcall' & _)]];
    rewrite Hnow in Hcall'; [ | congruence | congruence ].
  assert (e' = e) as -> by congruence.
  rewrite Hd, Hcur. simpl.
  assert (HAB : String.eqb A B = false) by (apply String.eqb_neq; assumption).
  rewrite HAB, <- app_assoc. repeat split.
  - rewrite lookup_delete_ne by congruence. apply lookup_delete_eq.
  - apply lookup_delete_eq.
Qed.

(** X6.  A [play] that returns has made its session current and has
    kept it bound; the only other change to the registry is that the
    session that was current before, if it was a different one, is gone. *)
Theorem play_returned_keeps_session_bound r id opts s r' :
  play w id opts r = (Return s, r') ->
  current r' = Some id /\
  (exists entry, records r !! id = Some entry /\ records r' !! id = Some entry) /\
  (forall other, other <> id -> current r <> Some other ->
                 records r' !! other = records r !! other) /\
  (forall other, other <> id -> current r = Some other -> records r' !! other = None).
Proof.
  intros Hplay.
  destruct (play_resolves w _ _ _ _ _ Hplay) as (entry & video & Hentry & _).
  destruct (play_returned w _ _ _ _ _ Hplay) as (Hcur & Hrec & _).
  split; [assumption|]. rewrite Hrec.
  destruct (displaced_shape id r) as [[-> Hc] | (c & Hc & Hne & ->)]; simpl.
  - split; [eauto|]. split; [reflexivity|].
    intros other Hother Ho. destruct Hc; congruence.
  - split; [exists entry; split; [assumption|]; rewrite lookup_delete_ne by assumption;
            assumption|].
    split.
    + intros other Hother Ho. rewrite lookup_delete_ne by congruence. reflexivity.
    + intros other Hother Ho. assert (c = other) as -> by congruence. apply lookup_delete_eq.
Qed.

(** X7.  With no current session, a [pause] that returns returns the
    Stopped snapshot; it has sent the pause command, emitted the pause
    notification with a null id, shown the progress and read the status,
    in this order, and has changed neither registry nor pointer. *)
Theorem pause_without_session r s r' :
  current r = None ->
  pause w r = (Return s, r') ->
  s = stoppedStatus (timestamp s) /\
  records r' = records r /\
  current r' = None /\
  trace r' = trace r ++ [ Transport "pause" []; Emitted "pause" None;
                          Transport "showProgress" []; Transport "status" [] ].
Proof.
  intros Hc. unfold pause, bind at 1, connection at 1.
  destruct (connection_call w (now r) "pause" []); [|discriminate].
  unfold bind at 1, get_current. simpl. rewrite Hc.
  unfold bind at 1, emit. destruct (listeners w _ "pause" None) as [[]|]; [|discriminate].
  unfold bind at 1, connection at 1.
  destruct (connection_call w _ "showProgress" []); [|discriminate].
  intros Hstatus. apply status_without_session in Hstatus; [|assumption].
  destruct Hstatus as [-> ->]. unfold record_event; simpl.
  rewrite <- !app_assoc. repeat split; assumption.
Qed.

(** X8.  [turnoff] with a current session: whether the quit command
    returns or raises, the session is released from the registry while
    the pointer keeps naming it; after the quit and the release only the
    status is read, and when the player then reports nothing playing the
    result is the Stopped snapshot, also after a quit that raised. *)
Theorem turnoff_releases_but_keeps_pointer r id :
  current r = Some id ->
  id <> "" ->
  exists c r',
    turnoff w r = (c, r') /\
    records r' !! id = None /\
    current r' = Some id /\
    (exists evs, trace r' = trace r ++ Transport "quit" [] :: Released (Some id) :: evs /\
                 Forall status_event evs) /\
    (forall reply,
        connection_call w (S (S (now r))) "status" [] = Return reply ->
        nothing_playing reply = true ->
        c = Return (stoppedStatus (clock w (S (S (S (now r))))))).
Proof.
  intros Hc Hne.
  assert (Ht : truthy_string (Some id) = true).
  { simpl. apply String.eqb_neq in Hne. rewrite Hne. reflexivity. }
  set (r1 := mkReceiver (delete id (records r)) (Some id)
                 (trace r ++ [Transport "quit" []; Released (Some id)])).
  assert (Hturn : turnoff w r = status w r1).
  { unfold turnoff, bind at 1, try_catch, bind at 1, connection.
    assert (Hq : forall c : Completion (option MpvStatus),
              (let (c0, r') :=
                 let (c0, r') := (c, record_event (Transport "quit" []) r) in
                 match c0 with
                 | Return _ => ret () r'
                 | Throw e => (Throw e, r')
                 end in
               match c0 with
               | Return a => (Return a, r')
               | Throw e => ret () r'
               end) = (Return (), record_event (Transport "quit" []) r)).
    { intros [x|e]; reflexivity. }
    rewrite Hq. unfold bind at 1, get_current. simpl. rewrite Hc, Ht.
    unfold bind, release, record_event. simpl. rewrite Hc. subst r1.
    rewrite <- app_assoc. reflexivity. }
  destruct (status w r1) as [c r'] eqn:Hstatus. exists c, r'.
  split; [rewrite Hturn; reflexivity|].
  pose proof Hstatus as Hframe. apply status_frame in Hframe.
  destruct Hframe as (Hrec & Hcur & evs & Htrace & Hevs).
  split; [rewrite Hrec; apply lookup_delete_eq|]. split; [rewrite Hcur; reflexivity|].
  split.
  - exists evs. rewrite Htrace. subst r1; simpl. rewrite <- app_assoc. auto.
  - intros reply Hcall Hnothing.
    assert (Hnow : now r1 = S (S (now r))).
    { subst r1. unfold now; simpl. rewrite length_app; simpl; lia. }
    rewrite (status_when_nothing_plays w r1 reply) in Hstatus.
    + injection Hstatus as <- _. rewrite Hnow. reflexivity.
    + rewrite Hnow. assumption.
    + assumption.
Qed.

(** X9.  When the setup of [play] succeeds and only the status read
    afterwards fails, [play] raises, and the session is current and
    still bound in the registry: nothing is rolled back. *)
Theorem play_read_back_failure_is_not_rolled_back r id opts entry video reply e r2 :
  records r !! id = Some entry ->
  List.find (is_type Video) (streams entry) = Some video ->
  connection_call w (now (displaced id r)) "play" (play_arguments w id entry video)
    = Return reply ->
  listeners w (S (now (displaced id r))) "play" (Some id) = Return tt ->
  play w id opts r = (Throw e, r2) ->
  current r2 = Some id /\
  records r2 !! id = Some entry /\
  times (released id) (drop (length (trace r)) (trace r2)) = 0.
Proof.
  intros Hentry Hvideo Hcall Hemit Hplay.
  destruct (play_outcomes w _ _ _ _ _ _ _ Hentry Hvideo Hplay)
    as [(e' & Hcall' & _) | [(reply' & e' & _ & Hemit' & _) | (reply' & _ & _ & Hstatus)]];
    [congruence | congruence | ].
  apply status_frame in Hstatus. simpl in Hstatus.
  destruct Hstatus as (Hrec & Hcur & sevs & Htrace & Hsevs).
  split; [assumption|]. rewrite Hrec, Htrace.
  destruct (displaced_shape id r) as [[-> _] | (c & Hc & Hne & ->)]; simpl.
  - split; [assumption|]. rewrite <- app_assoc, drop_app_length.
    rewrite times_app, (status_events_not_released _ _ Hsevs). reflexivity.
  - split; [rewrite lookup_delete_ne by assumption; assumption|].
    rewrite <- !app_assoc, drop_app_length.
    rewrite !times_app, (status_events_not_released _ _ Hsevs).
    unfold times; simpl. apply String.eqb_neq in Hne. rewrite Hne. reflexivity.
Qed.

End ReceiverFrame.

(** *** On the sample configurations *)

(** X2 on a sample: the player cannot be reached, so the close raises. *)
Lemma reconnect_survives_disconnect_failure_witness :
  connection_call Samples.player_off (now Samples.idle) "close" [] = Throw Samples.boom /\
  MpvReceiver.reconnect Samples.player_off Samples.idle
    = (Return true, record_event (Transport "close" []) Samples.idle).
Proof.
  split; [reflexivity|].
  apply (reconnect_survives_disconnect_failure Samples.player_off Samples.idle).
  reflexivity.
Defined.

(** X3 on a sample: A is current and the player reports a movie. *)
Lemma status_reports_bound_session_witness :
  Samples.status_playing_A = MpvReceiver.stoppedStatus (timestamp Samples.status_playing_A) \/
  exists id entry,
    current Samples.playing_A = Some id /\ records Samples.playing_A !! id = Some entry /\
    record (media Samples.status_playing_A) = Some (entry_record entry) /\
    (state Samples.status_playing_A = Playing /\
     speed (time (media Samples.status_playing_A)) = 1%Q \/
     state Samples.status_playing_A = Paused /\
     speed (time (media Samples.status_playing_A)) = 0%Q).
Proof.
  apply (status_reports_bound_session Samples.player_on Samples.playing_A
           Samples.status_playing_A
           (snd (MpvReceiver.status Samples.player_on Samples.playing_A))).
  vm_compute. reflexivity.
Defined.

(** X4 on a sample: no session Z is registered. *)
Lemma play_unknown_session_changes_nothing_witness :
  MpvReceiver.play Samples.player_on "Z" Undefined Samples.playing_A
    = (Throw (mkError SessionNotFoundError "Z"), Samples.playing_A).
Proof.
  apply (play_unknown_session_changes_nothing Samples.player_on Samples.playing_A "Z").
  reflexivity.
Defined.

(** X5 on a sample: A is current, the player cannot be reached. *)
Lemma play_refused_leaves_stale_pointer_witness :
  exists r',
    MpvReceiver.play Samples.player_off "B" Undefined Samples.playing_A
      = (Throw Samples.boom, r') /\
    current r' = Some "A" /\
    records r' !! "A" = None /\
    records r' !! "B" = None /\
    trace r' = trace Samples.playing_A
                 ++ [ Released (Some "A");
                      Transport "play"
                        (play_arguments Samples.player_off "B" (Samples.with_subtitles "B")
                           (mkStream "B-video" Video));
                      Released (Some "B") ].
Proof.
  apply (play_refused_leaves_stale_pointer Samples.player_off Samples.playing_A "A" "B"
           Undefined (Samples.with_subtitles "B") (mkStream "B-video" Video) Samples.boom);
    try reflexivity.
  discriminate.
Defined.

(** X6 on a sample: [play A] on the idle receiver. *)
Lemma play_returned_keeps_session_bound_witness :
  current Samples.after_play_A = Some "A" /\
  (exists entry, records Samples.idle !! "A" = Some entry /\
                 records Samples.after_play_A !! "A" = Some entry) /\
  (forall other, other <> "A" -> current Samples.idle <> Some other ->
                 records Samples.after_play_A !! other = records Samples.idle !! other) /\
  (forall other, other <> "A" -> current Samples.idle = Some other ->
                 records Samples.after_play_A !! other = None).
Proof.
  apply (play_returned_keeps_session_bound Samples.player_on Samples.idle "A" Undefined
           Samples.status_of_A Samples.after_play_A).
  vm_compute. reflexivity.
Defined.

(** X7 on a sample: [pause] on the idle receiver, nothing loaded. *)
Lemma pause_without_session_witness :
  MpvReceiver.stoppedStatus 4 = MpvReceiver.stoppedStatus (timestamp (MpvReceiver.stoppedStatus 4)) /\
  records (snd (MpvReceiver.pause Samples.player_idle Samples.idle)) = records Samples.idle /\
  current (snd (MpvReceiver.pause Samples.player_idle Samples.idle)) = None /\
  trace (snd (MpvReceiver.pause Samples.player_idle Samples.idle))
    = trace Samples.idle ++ [ Transport "pause" []; Emitted "pause" None;
                              Transport "showProgress" []; Transport "status" [] ].
Proof.
  apply (pause_without_session Samples.player_idle Samples.idle (MpvReceiver.stoppedStatus 4)
           (snd (MpvReceiver.pause Samples.player_idle Samples.idle))).
  - reflexivity.
  - vm_compute. reflexivity.
Defined.

(** X8 on a sample: [turnoff] while A is current and the player cannot
    be reached. *)
Lemma turnoff_releases_but_keeps_pointer_witness :
  exists c r',
    MpvReceiver.turnoff Samples.player_off Samples.playing_A = (c, r') /\
    records r' !! "A" = None /\
    current r' = Some "A" /\
    (exists evs,
        trace r' = trace Samples.playing_A
                     ++ Transport "quit" [] :: Released (Some "A") :: evs /\
        Forall status_event evs) /\
    (forall reply,
        connection_call Samples.player_off (S (S (now Samples.playing_A))) "status" []
          = Return reply ->
        nothing_playing reply = true ->
        c = Return (MpvReceiver.stoppedStatus
                      (clock Samples.player_off (S (S (S (now Samples.playing_A))))))).
Proof.
  apply (turnoff_releases_but_keeps_pointer Samples.player_off Samples.playing_A "A").
  - reflexivity.
  - discriminate.
Defined.

(** X9 on a sample: the player plays A but its status cannot be read. *)
Lemma play_read_back_failure_is_not_rolled_back_witness :
  current (snd (MpvReceiver.play Samples.status_unreadable "A" Undefined Samples.idle))
    = Some "A" /\
  records (snd (MpvReceiver.play Samples.status_unreadable "A" Undefined Samples.idle)) !! "A"
    = Some (Samples.with_subtitles "A") /\
  times (released "A")
    (drop (length (trace Samples.idle))
       (trace (snd (MpvReceiver.play Samples.status_unreadable "A" Undefined Samples.idle))))
    = 0.
Proof.
  apply (play_read_back_failure_is_not_rolled_back Samples.status_unreadable Samples.idle "A"
           Undefined (Samples.with_subtitles "A") (mkStream "A-video" Video) None Samples.boom
           (snd (MpvReceiver.play Samples.status_unreadable "A" Undefined Samples.idle)));
    vm_compute; reflexivity.
Defined.

(** ** The transport client: what [call] keeps *)

Section TransportInvariants.

Import KodiConnection.

Context (d : Device).

Lemma step_refl k : step k k.
Proof. repeat split. exists []. rewrite app_nil_r. reflexivity. Qed.

Lemma step_trans k1 k2 k3 : step k1 k2 -> step k2 k3 -> step k1 k3.
Proof.
  intros ((A1 & P1 & U1 & W1 & F1) & T1 & (m1 & I1)) ((A2 & P2 & U2 & W2 & F2) & T2 & (m2 & I2)).
  split; [repeat split; congruence|]. split.
  - intros H. rewrite T2, T1 by congruence. reflexivity.
  - exists (m1 ++ m2). rewrite I2, I1, app_assoc. reflexivity.
Qed.

Lemma step_useFallback err k : step k (snd (useFallback err k)).
Proof.
  destruct err as [e|t]; simpl; [|apply step_refl].
  destruct (has_code "ECONNREFUSED" e || has_code "ETIMEDOUT" e); simpl; [|apply step_refl].
  destruct (1 <? failedAttemptsAtConnecting k + 1)%Z; simpl.
  - repeat split. exists []. rewrite app_nil_r. reflexivity.
  - destruct (fallback k) eqn:Hf; simpl.
    + repeat split; try assumption; try congruence. exists []. rewrite app_nil_r. reflexivity.
    + repeat split; try assumption. exists []. rewrite app_nil_r. reflexivity.
Qed.

Lemma step_open k : step k (snd (open d k)).
Proof.
  unfold open. cbn [log_io io].
  destruct (open_outcome d _ _); simpl; repeat split; eexists; reflexivity.
Qed.

Lemma step_request k command args : step k (snd (request d k command args)).
Proof. unfold request; simpl. repeat split. eexists; reflexivity. Qed.

Lemma step_close k : step k (close k).
Proof. repeat split. exists []. rewrite app_nil_r. reflexivity. Qed.

Lemma step_set_failedAttempts n k : step k (set_failedAttempts n k).
Proof. repeat split. exists []. rewrite app_nil_r. reflexivity. Qed.

(** The loop ends with an open connection, or with an error and the
    counter at 0. *)
Lemma ensure_open_steps fuel : forall k o k',
  ensure_open d fuel k = Some (o, k') ->
  step k k' /\
  match o with
  | None => connected k' = true
  | Some _ => failedAttemptsAtConnecting k' = 0%Z
  end.
Proof.
  induction fuel as [|fuel IH]; intros k o k'; cbn [ensure_open];
    destruct (connected k) eqn:Hc.
  - intros [= <- <-]. split; [apply step_refl | assumption].
  - discriminate.
  - intros [= <- <-]. split; [apply step_refl | assumption].
  - pose proof (step_open k) as Hopen.
    destruct (open d k) as [[err|] k1]; simpl in Hopen.
    + pose proof (step_useFallback err k1) as Hfb.
      destruct (useFallback err k1) as [[] k2]; simpl in Hfb.
      * intros H. apply IH in H. destruct H as [H Ho]. split; [|assumption].
        eapply step_trans; [exact Hopen|]. eapply step_trans; [exact Hfb|].
        eapply step_trans; [apply step_close | exact H].
      * intros [= <- <-]. split; [|reflexivity].
        eapply step_trans; [exact Hopen|]. eapply step_trans; [exact Hfb|].
        apply step_set_failedAttempts.
    + intros H. apply IH in H. destruct H as [H Ho]. split; [|assumption].
      eapply step_trans; [exact Hopen|].
      eapply step_trans; [apply step_set_failedAttempts | exact H].
Qed.

Lemma call_steps fuel : forall k command args o k',
  call d fuel k command args = Some (o, k') ->
  step k k' /\ failedAttemptsAtConnecting k' = 0%Z /\
  (forall result, o = Resolved result -> connected k' = true).
Proof.
  induction fuel as [|fuel IH]; intros k command args o k'; cbn [call]; [discriminate|].
  destruct (ensure_open d fuel k) as [[[err|] k1]|] eqn:He; [ | | discriminate].
  - apply ensure_open_steps in He. destruct He as [Hs Hf].
    intros [= <- <-]. split; [assumption|]. split; [assumption|]. discriminate.
  - apply ensure_open_steps in He. destruct He as [Hs Hc].
    pose proof (step_request k1 command args) as Hreq.
    assert (Hcr : connected (snd (request d k1 command args)) = true) by exact Hc.
    destruct (request d k1 command args) as [[result|err] k2]; simpl in Hreq, Hcr.
    + intros [= <- <-]. split; [|split; [reflexivity|intros; exact Hcr]].
      eapply step_trans; [exact Hs|]. eapply step_trans; [exact Hreq|].
      apply step_set_failedAttempts.
    + pose proof (step_useFallback err k2) as Hfb.
      destruct (useFallback err k2) as [[] k3]; simpl in Hfb.
      * intros H. apply IH in H. destruct H as (H & Hf & Ho).
        split; [|split; assumption].
        eapply step_trans; [exact Hs|]. eapply step_trans; [exact Hreq|].
        eapply step_trans; [exact Hfb|]. eapply step_trans; [apply step_close | exact H].
      * destruct (not_ready err).
        -- intros H. apply IH in H. destruct H as (H & Hf & Ho).
           split; [|split; assumption].
           eapply step_trans; [exact Hs|]. eapply step_trans; [exact Hreq|].
           eapply step_trans; [exact Hfb|]. eapply step_trans; [apply step_close | exact H].
        -- intros [= <- <-]. split; [|split; [reflexivity|discriminate]].
           eapply step_trans; [exact Hs|]. eapply step_trans; [exact Hreq|].
           eapply step_trans; [exact Hfb|]. apply step_set_failedAttempts.
Qed.

(** X10.  Whenever [call] completes, with a result or with an error,
    after any number of retries and address changes: the failed-attempt
    counter is 0, the address, port, credentials and fallback are what
    they were, the I/O done before is still there with the new I/O after
    it, and a call that completed with a result leaves the connection
    open. *)
Theorem call_completes_settled fuel k command args o k' :
  call d fuel k command args = Some (o, k') ->
  settled k k' /\ (forall result, o = Resolved result -> connected k' = true).
Proof.
  intros H. apply call_steps in H. destruct H as ((Hc & Hu & Hio) & Hf & Ho).
  split; [|assumption]. repeat split; try apply Hc; assumption.
Qed.

(** X11.  Without a fallback address, no [call] ever changes the
    address in use, whatever fails on the way. *)
Theorem call_without_fallback_keeps_address fuel k command args o k' :
  fallback k = None ->
  call d fuel k command args = Some (o, k') ->
  usingFallback k' = usingFallback k.
Proof.
  intros Hf H. apply call_steps in H. destruct H as ((_ & Hu & _) & _). auto.
Qed.

(** X12.  On an open connection, a request that fails with an error
    that is not "socket not ready" and that is either no connectivity
    error or meets no fallback address is surfaced at once: one request
    is made, none is repeated, the connection stays open on the same
    address, the counter is 0 and the error raised is the wrapped one. *)
Theorem failure_is_surfaced_without_retry k command args err fuel :
  connected k = true ->
  request_outcome d (length (io k)) (target k) command args = Rejected err ->
  not_ready err = false ->
  connectivity err = false \/ fallback k = None ->
  exists k',
    call d (S fuel) k command args = Some (Rejected (wrapped k command err), k') /\
    io k' = io k ++ [Requested (target k) command args] /\
    connected k' = true /\
    usingFallback k' = usingFallback k /\
    failedAttemptsAtConnecting k' = 0%Z.
Proof.
  intros Hc Hreq Hready Hcase.
  rewrite call_connected, Hreq by assumption.
  assert (Hfb : exists n, useFallback err (log_io (Requested (target k) command args) k)
                = (false, set_failedAttempts n (log_io (Requested (target k) command args) k))).
  { destruct err as [e|t]; simpl.
    - destruct (has_code "ECONNREFUSED" e || has_code "ETIMEDOUT" e) eqn:Hcode.
      + destruct Hcase as [Hcase|Hcase]; [simpl in Hcase; congruence|].
        rewrite Hcase, orb_true_r. eexists; reflexivity.
      + exists (failedAttemptsAtConnecting k). destruct k; reflexivity.
    - exists (failedAttemptsAtConnecting k). destruct k; reflexivity. }
  destruct Hfb as (n & ->). rewrite Hready.
  eexists. split; [reflexivity|]. repeat split. exact Hc.
Qed.

(** The message of the error raised for an error that carries one: the
    primary address, the command, the message and the data. *)
Lemma wrapped_message k command msg info code0 errcode0 errmessage0 method0 text0 :
  msg <> "" ->
  wrapped k command
    (ThrownObject (mkErrorObject code0 (Some msg) info errcode0 errmessage0 method0 text0))
  = new_Error (address k ++ " " ++ command ++ " " ++ msg ++ ": "
               ++ (if truthy_string info then show info else "")).
Proof.
  intros H. unfold wrapped. cbn [message data truthy_string show default].
  apply String.eqb_neq in H. rewrite H. reflexivity.
Qed.

(** *** The player commands *)

Lemma getActiveVideoPlayer_answered fuel k players :
  connected k = true ->
  request_outcome d (length (io k)) (target k) "Player.GetActivePlayers" (Obj [])
    = Resolved (Arr players) ->
  getActiveVideoPlayer d (S fuel) k
    = Some (find_video players,
            set_failedAttempts 0
              (log_io (Requested (target k) "Player.GetActivePlayers" (Obj [])) k)).
Proof.
  intros Hc Hreq. unfold getActiveVideoPlayer, getActivePlayers.
  rewrite call_connected, Hreq by assumption. reflexivity.
Qed.

(** What [find_video] returns is a video player of the list. *)
Lemma find_video_found players player :
  find_video players = Resolved player ->
  not_null player = true ->
  is_video player = true /\ In player players.
Proof.
  intros Hfind Hnn. induction players as [|p rest IH]; simpl in Hfind.
  - injection Hfind as <-. discriminate.
  - destruct p; try discriminate;
      (destruct (is_video _) eqn:Hp;
       [ injection Hfind as <-; split; [assumption | left; reflexivity]
       | destruct (IH Hfind) as [H1 H2]; split; [assumption | right; assumption] ]).
Qed.

(** X13.  When the device lists no video player, pause, resume, stop
    and seekRelative complete without a result and without sending any
    command: the query for the active players is the only request. *)
Theorem commands_without_video_player k players fuel :
  connected k = true ->
  request_outcome d (length (io k)) (target k) "Player.GetActivePlayers" (Obj [])
    = Resolved (Arr players) ->
  find_video players = Resolved Undefined ->
  let k' := set_failedAttempts 0
              (log_io (Requested (target k) "Player.GetActivePlayers" (Obj [])) k) in
  pause d (S fuel) k = Some (Resolved Undefined, k') /\
  resume d (S fuel) k = Some (Resolved Undefined, k') /\
  stop d (S fuel) k = Some (Resolved Undefined, k') /\
  (forall time, seekRelative d (S fuel) k time = Some (Resolved Undefined, k')) /\
  io k' = io k ++ [Requested (target k) "Player.GetActivePlayers" (Obj [])].
Proof.
  intros Hc Hreq Hfind k'.
  unfold pause, resume, stop, seekRelative, on_video_player.
  rewrite (getActiveVideoPlayer_answered _ _ _ Hc Hreq), Hfind. cbn [not_null].
  repeat split.
Qed.

(** X14.  When the device lists a video player, pause, resume and stop
    are the PlayPause (play false, play true) and Stop commands sent
    with the [playerid] of the first video player of the list. *)
Theorem commands_address_the_video_player k players player fuel :
  connected k = true ->
  request_outcome d (length (io k)) (target k) "Player.GetActivePlayers" (Obj [])
    = Resolved (Arr players) ->
  find_video players = Resolved player ->
  not_null player = true ->
  let k' := set_failedAttempts 0
              (log_io (Requested (target k) "Player.GetActivePlayers" (Obj [])) k) in
  is_video player = true /\
  In player players /\
  pause d (S fuel) k
    = call d (S fuel) k' "Player.PlayPause"
        (Obj [("playerid", property player "playerid"); ("play", Bool false)]) /\
  resume d (S fuel) k
    = call d (S fuel) k' "Player.PlayPause"
        (Obj [("playerid", property player "playerid"); ("play", Bool true)]) /\
  stop d (S fuel) k
    = call d (S fuel) k' "Player.Stop" (Obj [("playerid", property player "playerid")]).
Proof.
  intros Hc Hreq Hfind Hnn k'.
  destruct (find_video_found _ _ Hfind Hnn) as [Hv Hin].
  split; [assumption|]. split; [assumption|].
  unfold pause, resume, stop, on_video_player.
  rewrite (getActiveVideoPlayer_answered _ _ _ Hc Hreq), Hfind, Hnn.
  repeat split.
Qed.

End TransportInvariants.

(** *** On the sample configurations *)

(** X10 on a sample: two refused requests, then an answer. *)
Lemma call_completes_settled_witness :
  exists k',
    KodiConnection.call Samples.refuses_twice 6 Samples.kodi "Player.GetActivePlayers" (Obj [])
      = Some (KodiConnection.Resolved (Str "OK"), k') /\
    settled Samples.kodi k' /\
    (forall result,
        KodiConnection.Resolved (Str "OK") = KodiConnection.Resolved result ->
        KodiConnection.connected k' = true).
Proof.
  eexists. split; [vm_compute; reflexivity|].
  apply (call_completes_settled Samples.refuses_twice 6 Samples.kodi
           "Player.GetActivePlayers" (Obj [])).
  vm_compute. reflexivity.
Defined.

(** X11 on a sample: no fallback, every request refused. *)
Lemma call_without_fallback_keeps_address_witness :
  exists k',
    KodiConnection.call Samples.always_refuses 3 Samples.kodi_plain
      "Player.GetActivePlayers" (Obj [])
      = Some (KodiConnection.Rejected
                (KodiConnection.wrapped Samples.kodi_plain "Player.GetActivePlayers"
                   Samples.refused), k') /\
    KodiConnection.usingFallback k' = KodiConnection.usingFallback Samples.kodi_plain.
Proof.
  eexists. split; [vm_compute; reflexivity|].
  apply (call_without_fallback_keeps_address Samples.always_refuses 3 Samples.kodi_plain
           "Player.GetActivePlayers" (Obj [])
           (KodiConnection.Rejected
              (KodiConnection.wrapped Samples.kodi_plain "Player.GetActivePlayers"
                 Samples.refused))).
  - reflexivity.
  - vm_compute. reflexivity.
Defined.

(** X12 on a sample: the device rejects the parameters of a command. *)
Lemma failure_is_surfaced_without_retry_witness :
  exists k',
    KodiConnection.call Samples.rejects_params 1 Samples.kodi_open "Player.Stop" (Obj [])
      = Some (KodiConnection.Rejected
                (KodiConnection.new_Error "10.0.0.2 Player.Stop Invalid params.: playerid"),
              k') /\
    KodiConnection.io k'
      = KodiConnection.io Samples.kodi_open
          ++ [KodiConnection.Requested (target Samples.kodi_open) "Player.Stop" (Obj [])] /\
    KodiConnection.connected k' = true /\
    KodiConnection.usingFallback k' = KodiConnection.usingFallback Samples.kodi_open /\
    KodiConnection.failedAttemptsAtConnecting k' = 0%Z.
Proof.
  apply (failure_is_surfaced_without_retry Samples.rejects_params Samples.kodi_open
           "Player.Stop" (Obj []) Samples.invalid_params 0);
    try reflexivity.
  left. reflexivity.
Defined.

(** X13 on a sample: only an audio player is active. *)
Lemma commands_without_video_player_witness :
  KodiConnection.stop (Samples.device_with [Samples.audio_player]) 1 Samples.kodi_open
    = Some (KodiConnection.Resolved Undefined,
            KodiConnection.set_failedAttempts 0
              (KodiConnection.log_io
                 (KodiConnection.Requested (target Samples.kodi_open)
                    "Player.GetActivePlayers" (Obj []))
                 Samples.kodi_open)).
Proof.
  apply (commands_without_video_player (Samples.device_with [Samples.audio_player])
           Samples.kodi_open [Samples.audio_player] 0 eq_refl eq_refl eq_refl).
Defined.

(** X14 on a sample: an audio player and a video player are active. *)
Lemma commands_address_the_video_player_witness :
  KodiConnection.stop
      (Samples.device_with [Samples.audio_player; Samples.video_player]) 1 Samples.kodi_open
    = KodiConnection.call
        (Samples.device_with [Samples.audio_player; Samples.video_player]) 1
        (KodiConnection.set_failedAttempts 0
           (KodiConnection.log_io
              (KodiConnection.Requested (target Samples.kodi_open)
                 "Player.GetActivePlayers" (Obj []))
              Samples.kodi_open))
        "Player.Stop" (Obj [("playerid", Num 1)]).
Proof.
  apply (commands_address_the_video_player
           (Samples.device_with [Samples.audio_player; Samples.video_player])
           Samples.kodi_open [Samples.audio_player; Samples.video_player]
           Samples.video_player 0 eq_refl eq_refl eq_refl eq_refl).
Defined.

(** X22 on a sample: the primary refuses the request, the fallback
    answers it. *)
Lemma fallback_after_refused_request_witness :
  exists k',
    KodiConnection.call Samples.primary_refuses 3 Samples.kodi_open
      "Player.GetActivePlayers" (Obj [])
      = Some (KodiConnection.Resolved (Str "OK"), k') /\
    KodiConnection.usingFallback k' = true /\
    KodiConnection.failedAttemptsAtConnecting k' = 0%Z.
Proof.
  apply (fallback_after_refused_request Samples.primary_refuses Samples.kodi_open "10.0.0.3"
           "Player.GetActivePlayers" (Obj []) Samples.refused (Str "OK") 0);
    reflexivity.
Defined.

(** ** KodiApi: the parsed path of [query] and the getters *)

Lemma assoc_set_field name v other (fields : list (string * JsVal)) :
  assoc other (set_field name v fields)
  = if String.eqb name other then Some v else assoc other fields.
Proof.
  induction fields as [|[n x] rest IH]; simpl.
  - reflexivity.
  - destruct (String.eqb n name) eqn:Hn; simpl.
    + apply String.eqb_eq in Hn. subst n. destruct (String.eqb name other); reflexivity.
    + rewrite IH. destruct (String.eqb n other) eqn:Ho; [|reflexivity].
      apply String.eqb_eq in Ho. subst n. rewrite String.eqb_sym, Hn. reflexivity.
Qed.

(** Reading a member of [{ ...base, ...extra }]: what [extra] gives
    last, and otherwise what [base] gives. *)
Lemma assoc_object_spread name (extra base : list (string * JsVal)) :
  assoc name (object_spread base extra)
  = match last_given name extra with
    | Some v => Some v
    | None => assoc name base
    end.
Proof.
  unfold object_spread, last_given. revert base.
  induction extra as [|[n v] rest IH]; intros base; simpl; [reflexivity|].
  rewrite IH, assoc_set_field.
  assert (Hrev : assoc name (rev rest ++ [(n, v)])
                 = match assoc name (rev rest) with
                   | Some x => Some x
                   | None => if String.eqb n name then Some v else None
                   end).
  { generalize (rev rest). intros l. induction l as [|[n' x'] l IHl]; simpl; [reflexivity|].
    destruct (String.eqb n' name); [reflexivity | exact IHl]. }
  rewrite Hrev. destruct (assoc name (rev rest)); [reflexivity|].
  destruct (String.eqb n name); reflexivity.
Qed.

Section QueryParsed.

Import KodiApi.

Context (got : string -> JsVal -> Completion Response)
        (JSON_parse : string -> option Body)
        (port_text : Z -> string).

(** [query] past its first test and past [JSON.parse]. *)
Lemma query_parsed api q kind options response reply :
  truthy_string kind = true ->
  returnResponse options = false ->
  got (endpoint port_text api) (request_body q) = Return response ->
  JSON_parse (body response) = Some reply ->
  query got JSON_parse port_text api q kind options =
    match error reply with
    | Some e => Throw (mkError PlainError (message e))
    | None =>
        match result reply with
        | None => Throw (mkError TypeError "cannot read properties")
        | Some r =>
            if match limits r with
               | Some l => Qle_bool (total l) (start l)
               | None => false
               end
            then Return (Value_ (Arr []))
            else
              let found :=
                if truthy (result_member r (default "" kind ++ "s"))
                then result_member r (default "" kind ++ "s")
                else result_member r (default "" kind ++ "details") in
              if negb (is_Array found) && forceArray options
              then Return (Value_ (Arr [found]))
              else Return (Value_ found)
        end
    end.
Proof.
  intros Hkind Hret Hgot Hparse. unfold query. rewrite Hgot, Hkind, Hret, Hparse. reflexivity.
Qed.

(** X16.  With a kind, without [options.returnResponse] and with
    [options.forceArray]: whatever [query] returns is an array; and on a
    reply without error it returns the empty array for an empty page,
    the member found itself when that is an array, and otherwise the
    one-item array that holds the member found. *)
Theorem query_force_array api q kind options :
  truthy_string kind = true ->
  returnResponse options = false ->
  forceArray options = true ->
  (forall v,
      query got JSON_parse port_text api q kind options = Return v ->
      exists items, v = Value_ (Arr items)) /\
  (forall response r,
      got (endpoint port_text api) (request_body q) = Return response ->
      JSON_parse (body response) = Some (mkBody None (Some r)) ->
      let empty_page :=
        match limits r with
        | Some l => Qle_bool (total l) (start l)
        | None => false
        end in
      let found :=
        if truthy (result_member r (default "" kind ++ "s"))
        then result_member r (default "" kind ++ "s")
        else result_member r (default "" kind ++ "details") in
      (empty_page = true ->
       query got JSON_parse port_text api q kind options = Return (Value_ (Arr []))) /\
      (empty_page = false ->
       forall items, found = Arr items ->
       query got JSON_parse port_text api q kind options = Return (Value_ (Arr items))) /\
      (empty_page = false ->
       is_Array found = false ->
       query got JSON_parse port_text api q kind options = Return (Value_ (Arr [found])))).
Proof.
  intros Hkind Hret Hforce. split.
  - intros v. unfold query.
    destruct (got _ _) as [response|]; [|discriminate].
    rewrite Hkind, Hret. simpl.
    destruct (JSON_parse (body response)) as [reply|]; [|discriminate].
    destruct (error reply); [discriminate|].
    destruct (result reply) as [r|]; [|discriminate].
    destruct (match limits r with Some l => Qle_bool (total l) (start l) | None => false end).
    + intros [= <-]. eauto.
    + rewrite Hforce, andb_true_r.
      match goal with |- context [is_Array ?f] => destruct f eqn:Hf end; simpl;
        intros [= <-]; eauto.
  - intros response r Hgot Hparse empty_page found.
    rewrite (query_parsed _ _ _ _ _ _ Hkind Hret Hgot Hparse).
    cbn [error result]. fold empty_page. cbv zeta. fold found. rewrite Hforce, andb_true_r.
    repeat split.
    + intros ->. reflexivity.
    + intros -> items ->. reflexivity.
    + intros -> ->. reflexivity.
Qed.

(** X17.  A reply without error and without limits whose result has
    neither the member [kind + 's'] nor the member [kind + 'details']
    makes [query] return [undefined]; nothing is raised. *)
Theorem query_missing_member api q kind options response r :
  kind <> "" ->
  returnResponse options = false ->
  forceArray options = false ->
  got (endpoint port_text api) (request_body q) = Return response ->
  JSON_parse (body response) = Some (mkBody None (Some r)) ->
  limits r = None ->
  assoc (kind ++ "s") (members r) = None ->
  assoc (kind ++ "details") (members r) = None ->
  query got JSON_parse port_text api q (Some kind) options = Return (Value_ Undefined).
Proof.
  intros Hkind Hret Hforce Hgot Hparse Hlimits Hs Hd.
  assert (Ht : truthy_string (Some kind) = true).
  { simpl. apply String.eqb_neq in Hkind. rewrite Hkind. reflexivity. }
  rewrite (query_parsed _ _ _ _ _ _ Ht Hret Hgot Hparse). simpl.
  rewrite Hlimits, Hforce. unfold result_member. rewrite Hlimits, Hs, Hd.
  destruct (String.eqb (kind ++ "s") "limits"), (String.eqb (kind ++ "details") "limits");
    reflexivity.
Qed.

(** X18.  Every getter of the class passes a kind and no options, so
    none of them hands back a raw response: on a reply that carries an
    error object each of the eight raises an error with the device's
    message, whatever parameters it was given. *)
Theorem getters_pass_on_device_errors api params response e r :
  (forall url request, got url request = Return response) ->
  JSON_parse (body response) = Some (mkBody (Some e) r) ->
  let failure := Throw (mkError PlainError (message e)) in
  getEpisodes got JSON_parse port_text api params = failure /\
  getSingleEpisode got JSON_parse port_text api params = failure /\
  getSeasons got JSON_parse port_text api params = failure /\
  getSingleSeason got JSON_parse port_text api params = failure /\
  getShows got JSON_parse port_text api params = failure /\
  getSingleShow got JSON_parse port_text api params = failure /\
  getMovies got JSON_parse port_text api params = failure /\
  getSingleMovie got JSON_parse port_text api params = failure.
Proof.
  intros Hgot Hparse failure.
  unfold getEpisodes, getSingleEpisode, getSeasons, getSingleSeason, getShows, getSingleShow,
    getMovies, getSingleMovie.
  repeat split;
    (erewrite query_parsed; [ | reflexivity | reflexivity | apply Hgot | exact Hparse ];
     reflexivity).
Qed.

(** X19.  On a reply without error whose limits have [start >= total],
    the list getters (episodes, seasons, shows, movies) return the
    empty array, whatever else the result holds. *)
Theorem getters_normalize_empty_pages api params response r l :
  (forall url request, got url request = Return response) ->
  JSON_parse (body response) = Some (mkBody None (Some r)) ->
  limits r = Some l ->
  Qle (total l) (start l) ->
  let nothing := Return (Value_ (Arr [])) in
  getEpisodes got JSON_parse port_text api params = nothing /\
  getSeasons got JSON_parse port_text api params = nothing /\
  getShows got JSON_parse port_text api params = nothing /\
  getMovies got JSON_parse port_text api params = nothing.
Proof.
  intros Hgot Hparse Hl Hle nothing. apply Qle_bool_iff in Hle.
  unfold getEpisodes, getSeasons, getShows, getMovies.
  repeat split;
    (erewrite query_parsed; [ | reflexivity | reflexivity | apply Hgot | exact Hparse ];
     simpl; rewrite Hl, Hle; reflexivity).
Qed.

End QueryParsed.

(** X20.  In the request of a list getter, every member the caller's
    params give is sent with the caller's value, the default field list
    and sort order included; a caller who gives no "sort" gets the
    ascending default of the getter, and one who gives no "properties"
    gets the field list of the getter. *)
Theorem getter_params_override_defaults params :
  let sent q name := property (KodiApi.query_params q) name in
  (forall name v, last_given name params = Some v ->
     sent (KodiApi.getMovies_query params) name = v /\
     sent (KodiApi.getShows_query params) name = v /\
     sent (KodiApi.getSeasons_query params) name = v /\
     sent (KodiApi.getEpisodes_query params) name = v) /\
  (last_given "sort" params = None ->
     sent (KodiApi.getMovies_query params) "sort" = KodiApi.ascending_by "title" /\
     sent (KodiApi.getShows_query params) "sort" = KodiApi.ascending_by "title" /\
     sent (KodiApi.getSeasons_query params) "sort" = KodiApi.ascending_by "season" /\
     sent (KodiApi.getEpisodes_query params) "sort" = KodiApi.ascending_by "episode") /\
  (last_given "properties" params = None ->
     sent (KodiApi.getMovies_query params) "properties" = KodiApi.movieFieldsList /\
     sent (KodiApi.getShows_query params) "properties" = KodiApi.tvShowFieldsList /\
     sent (KodiApi.getSeasons_query params) "properties" = KodiApi.tvSeasonFieldsList /\
     sent (KodiApi.getEpisodes_query params) "properties" = KodiApi.tvEpisodeFieldsList).
Proof.
  cbv zeta. unfold KodiApi.getMovies_query, KodiApi.getShows_query, KodiApi.getSeasons_query,
    KodiApi.getEpisodes_query. cbn [KodiApi.query_params property].
  split; [|split].
  - intros name v H. rewrite !assoc_object_spread, H. repeat split.
  - intros H. rewrite !assoc_object_spread, H. repeat split.
  - intros H. rewrite !assoc_object_spread, H. repeat split.
Qed.

(** *** On the sample configurations *)

(** X16 on a sample: the details of one movie, asked as an array. *)
Lemma query_force_array_witness :
  KodiApi.query (Samples.replies "details") Samples.parse_details Samples.port_text
      KodiApi.default_api (KodiApi.mkQuery "VideoLibrary.GetMovieDetails" (Obj []))
      (Some "movie") (KodiApi.mkOptions false true)
    = Return (KodiApi.Value_ (Arr [Samples.movie_details])).
Proof.
  apply (proj2 (query_force_array (Samples.replies "details") Samples.parse_details
                  Samples.port_text KodiApi.default_api
                  (KodiApi.mkQuery "VideoLibrary.GetMovieDetails" (Obj []))
                  (Some "movie") (KodiApi.mkOptions false true) eq_refl eq_refl eq_refl)
               (KodiApi.mkResponse 200 "details")
               (KodiApi.mkReplyResult None [("moviedetails", Samples.movie_details)])
               eq_refl eq_refl);
    reflexivity.
Defined.

(** X17 on a sample: a result with no members. *)
Lemma query_missing_member_witness :
  KodiApi.query (Samples.replies "bare") Samples.parse_details Samples.port_text
      KodiApi.default_api (KodiApi.mkQuery "VideoLibrary.GetMovieDetails" (Obj []))
      (Some "movie") KodiApi.no_options
    = Return (KodiApi.Value_ Undefined).
Proof.
  apply (query_missing_member (Samples.replies "bare") Samples.parse_details Samples.port_text
           KodiApi.default_api (KodiApi.mkQuery "VideoLibrary.GetMovieDetails" (Obj []))
           "movie" KodiApi.no_options (KodiApi.mkResponse 200 "bare")
           (KodiApi.mkReplyResult None []));
    try reflexivity.
  discriminate.
Defined.

(** X18 on a sample: the error reply. *)
Lemma getters_pass_on_device_errors_witness :
  KodiApi.getMovies (Samples.replies "error") Samples.parse Samples.port_text
      KodiApi.default_api [("limits", Obj [("start", Num 0); ("end", Num 10)])]
    = Throw (mkError PlainError "Invalid params.") /\
  KodiApi.getSingleEpisode (Samples.replies "error") Samples.parse Samples.port_text
      KodiApi.default_api [("episodeid", Num 7)]
    = Throw (mkError PlainError "Invalid params.").
Proof.
  pose proof (getters_pass_on_device_errors (Samples.replies "error") Samples.parse
                Samples.port_text KodiApi.default_api) as H.
  split.
  - apply (H [("limits", Obj [("start", Num 0); ("end", Num 10)])]
             (KodiApi.mkResponse 200 "error") (KodiApi.mkReplyError "Invalid params.") None);
      reflexivity.
  - apply (H [("episodeid", Num 7)]
             (KodiApi.mkResponse 200 "error") (KodiApi.mkReplyError "Invalid params.") None);
      reflexivity.
Defined.

(** X19 on a sample: the empty page. *)
Lemma getters_normalize_empty_pages_witness :
  KodiApi.getMovies (Samples.replies "empty") Samples.parse Samples.port_text
      KodiApi.default_api []
    = Return (KodiApi.Value_ (Arr [])).
Proof.
  apply (getters_normalize_empty_pages (Samples.replies "empty") Samples.parse
           Samples.port_text KodiApi.default_api [] (KodiApi.mkResponse 200 "empty")
           (KodiApi.mkReplyResult (Some (KodiApi.mkLimits 0 0)) []) (KodiApi.mkLimits 0 0));
    try reflexivity.
  apply Qle_refl.
Defined.

(** ** KodiApi: a request that fails *)

Section RequestFailure.

Import KodiApi.

Context (got : string -> JsVal -> Completion Response)
        (JSON_parse : string -> option Body)
        (port_text : Z -> string).

(** X24.  Nothing in the class catches a failed request: when the HTTP
    request is rejected, [query] (with any kind and options), [sync] and
    each getter fail with the request's own error, and the reply parser
    is not consulted. *)
Theorem request_failures_pass_through api q kind options params e :
  (forall url request, got url request = Throw e) ->
  query got JSON_parse port_text api q kind options = Throw e /\
  sync got JSON_parse port_text api = Throw e /\
  getEpisodes got JSON_parse port_text api params = Throw e /\
  getSingleEpisode got JSON_parse port_text api params = Throw e /\
  getSeasons got JSON_parse port_text api params = Throw e /\
  getSingleSeason got JSON_parse port_text api params = Throw e /\
  getShows got JSON_parse port_text api params = Throw e /\
  getSingleShow got JSON_parse port_text api params = Throw e /\
  getMovies got JSON_parse port_text api params = Throw e /\
  getSingleMovie got JSON_parse port_text api params = Throw e.
Proof.
  intros Hgot.
  unfold sync, getEpisodes, getSingleEpisode, getSeasons, getSingleSeason, getShows,
    getSingleShow, getMovies, getSingleMovie, query.
  rewrite !Hgot. repeat split.
Qed.

End RequestFailure.

(** X24 on a sample: a device that refuses every request. *)
Lemma request_failures_pass_through_witness :
  KodiApi.sync (fun _ _ => Throw Samples.boom) Samples.parse Samples.port_text
      KodiApi.default_api
    = Throw Samples.boom /\
  KodiApi.getSingleMovie (fun _ _ => Throw Samples.boom) Samples.parse Samples.port_text
      KodiApi.default_api [("movieid", Num 3)]
    = Throw Samples.boom.
Proof.
  pose proof (request_failures_pass_through (fun _ _ => Throw Samples.boom) Samples.parse
                Samples.port_text KodiApi.default_api
                (KodiApi.mkQuery "VideoLibrary.Scan" (Obj [])) None KodiApi.no_options
                [("movieid", Num 3)] Samples.boom (fun _ _ => eq_refl)) as H.
  split; [exact (proj1 (proj2 H)) | exact (proj2 (proj2 (proj2 (proj2 (proj2 (proj2 (proj2 (proj2 (proj2 H)))))))))].
Defined.
